(** * Logistic regression with gradient descent (Lecture2/Logistic Regression.ipynb)

    A shallow embedding of the notebook's four functions [sigmoid],
    [gradient], [loss], [accuracy] and of its training loop (cell 8),
    together with the part of numpy they rely on.

    Modelling choices.
    - Scalars are real numbers ([R]): float64 arithmetic is idealised to
      exact arithmetic, so rounding, overflow, [inf] and [nan] are outside
      the model.  Where numpy would produce [inf]/[nan] (division of an
      array by zero, [log 0]) the model has the value of [Rdiv] / [ln].
      Module [F64] models the rounding of float64 for [sigmoid] and
      [accuracy] on one-column data; the last part of the file uses it to
      show where a statement proved in exact arithmetic does not carry
      over to float64.
    - Arrays are numpy arrays of rank at most two, with numpy's
      broadcasting rules.  All operations the notebook uses are closed on
      these ranks.
    - Python exceptions are explicit: every operation that can raise
      returns a [result]. *)

From Stdlib Require Import String Reals Lra Lia Bool Arith List Permutation.
Import ListNotations.
Open Scope R_scope.

(** ** Exceptions *)

Inductive exn : Type := ValueError | IndexError | ZeroDivisionError.

Inductive result (A : Type) : Type :=
| Ok (a : A)
| Raise (e : exn).
Arguments Ok {A} a.
Arguments Raise {A} e.

Definition bind {A B : Type} (c : result A) (k : A -> result B) : result B :=
  match c with
  | Ok a => k a
  | Raise e => Raise e
  end.

Notation "x <- c ;; k" := (bind c (fun x => k))
  (at level 61, c at next level, right associativity).

Fixpoint mapM {A B : Type} (f : A -> result B) (l : list A) : result (list B) :=
  match l with
  | [] => Ok []
  | a :: l' => b <- f a ;; bs <- mapM f l' ;; Ok (b :: bs)
  end.

(** ** numpy arrays of rank 0, 1 and 2 *)

Module Np.

(** [A0 x] is a scalar (a Python number or a numpy scalar, both immutable),
    [A1 v] an array of shape [(length v,)], [A2 c rows] an array of shape
    [(length rows, c)] stored row by row. *)
Inductive ndarray : Type :=
| A0 (x : R)
| A1 (v : list R)
| A2 (c : nat) (rows : list (list R)).

(** Every row of a rank-2 array has the array's column count. *)
Definition wf (a : ndarray) : Prop :=
  match a with
  | A2 c rows => Forall (fun r => length r = c) rows
  | _ => True
  end.

(** [a.shape] *)
Definition shape (a : ndarray) : list nat :=
  match a with
  | A0 _ => []
  | A1 v => [length v]
  | A2 c rows => [length rows; c]
  end.

(** [a.size] *)
Definition size (a : ndarray) : nat := fold_right Nat.mul 1%nat (shape a).

(** [a.shape[0]] *)
Definition shape0 (a : ndarray) : result nat :=
  match shape a with
  | [] => Raise IndexError
  | n :: _ => Ok n
  end.

(** The elements in row-major order ([a.ravel()]). *)
Definition ravel (a : ndarray) : list R :=
  match a with
  | A0 x => [x]
  | A1 v => v
  | A2 _ rows => concat rows
  end.

(** Elementwise application of a unary function. *)
Definition np_map (f : R -> R) (a : ndarray) : ndarray :=
  match a with
  | A0 x => A0 (f x)
  | A1 v => A1 (map f v)
  | A2 c rows => A2 c (map (map f) rows)
  end.

(** *** Broadcasting *)

(** The broadcast of two extents: equal, or one of them is 1. *)
Definition bdim (m n : nat) : result nat :=
  if (m =? n)%nat then Ok m
  else if (m =? 1)%nat then Ok n
  else if (n =? 1)%nat then Ok m
  else Raise ValueError.

Fixpoint zip_with {A B C : Type} (f : A -> B -> C) (u : list A) (v : list B)
  : list C :=
  match u, v with
  | a :: u', b :: v' => f a b :: zip_with f u' v'
  | _, _ => []
  end.

(** Combine two axes whose extents broadcast: pairwise when the extents
    agree, otherwise the axis of extent 1 is repeated. *)
Definition bcast {A B C : Type} (f : A -> B -> C) (u : list A) (v : list B)
  : list C :=
  if (length u =? length v)%nat then zip_with f u v
  else match u with
       | [a] => map (f a) v
       | _ => match v with
              | [b] => map (fun a => f a b) u
              | _ => []
              end
       end.

(** A broadcasting binary ufunc ([a + b], [a - b], [a * b], [a / b],
    [a == b]).  A rank-1 operand meets a rank-2 operand as a single row. *)
Definition np_binop (f : R -> R -> R) (a b : ndarray) : result ndarray :=
  match a, b with
  | A0 x, _ => Ok (np_map (f x) b)
  | _, A0 y => Ok (np_map (fun x => f x y) a)
  | A1 u, A1 v =>
      _ <- bdim (length u) (length v) ;; Ok (A1 (bcast f u v))
  | A1 u, A2 c rows =>
      c' <- bdim (length u) c ;; Ok (A2 c' (map (fun r => bcast f u r) rows))
  | A2 c rows, A1 v =>
      c' <- bdim c (length v) ;; Ok (A2 c' (map (fun r => bcast f r v) rows))
  | A2 c1 r1, A2 c2 r2 =>
      _ <- bdim (length r1) (length r2) ;;
      c' <- bdim c1 c2 ;;
      Ok (A2 c' (bcast (bcast f) r1 r2))
  end.

Definition np_add : ndarray -> ndarray -> result ndarray := np_binop Rplus.
Definition np_sub : ndarray -> ndarray -> result ndarray := np_binop Rminus.
Definition np_mul : ndarray -> ndarray -> result ndarray := np_binop Rmult.
Definition np_div : ndarray -> ndarray -> result ndarray := np_binop Rdiv.

(** [x == y] on scalars, as the number 1 ([True]) or 0 ([False]). *)
Definition Req_num (x y : R) : R := if Req_dec_T x y then 1 else 0.

Definition np_eq : ndarray -> ndarray -> result ndarray := np_binop Req_num.

Definition shape_eqb (s t : list nat) : bool :=
  if list_eq_dec Nat.eq_dec s t then true else false.

(** [a += b].  A scalar is immutable, so the name is rebound to [a + b];
    an array is updated in place and must already have the broadcast
    shape, otherwise numpy raises ValueError. *)
Definition iadd (a b : ndarray) : result ndarray :=
  match a with
  | A0 _ => np_add a b
  | _ => r <- np_add a b ;;
         if shape_eqb (shape r) (shape a) then Ok r else Raise ValueError
  end.

(** *** Elementwise functions *)

Definition np_neg : ndarray -> ndarray := np_map Ropp.
Definition np_exp : ndarray -> ndarray := np_map exp.
Definition np_log : ndarray -> ndarray := np_map ln.
Definition np_abs : ndarray -> ndarray := np_map Rabs.

Definition sign (x : R) : R :=
  if Rlt_dec x 0 then -1 else if Rlt_dec 0 x then 1 else 0.

Definition np_sign : ndarray -> ndarray := np_map sign.

(** Rounding to the nearest integer, halves to the even neighbour
    ([np.round]). *)
Definition round_half_even (x : R) : R :=
  let n := Int_part x in
  let f := x - IZR n in
  if Rlt_dec f (1 / 2) then IZR n
  else if Rlt_dec (1 / 2) f then IZR (n + 1)
  else if Z.even n then IZR n else IZR (n + 1).

Definition np_round : ndarray -> ndarray := np_map round_half_even.

(** *** Reductions and products *)

Definition Rsum (l : list R) : R := fold_right Rplus 0 l.

(** [np.sum(a)] *)
Definition np_sum (a : ndarray) : ndarray := A0 (Rsum (ravel a)).

(** [np.linalg.norm(a)]: the 2-norm of a vector, the Frobenius norm of a
    matrix. *)
Definition linalg_norm (a : ndarray) : ndarray :=
  A0 (sqrt (Rsum (map (fun x => x * x) (ravel a)))).

(** [a ** 2] *)
Definition np_square : ndarray -> ndarray := np_map (fun x => x ^ 2).

Definition dotp (u v : list R) : R := Rsum (zip_with Rmult u v).

Definition column (j : nat) (rows : list (list R)) : list R :=
  map (fun r => nth j r 0) rows.

Definition columns (c : nat) (rows : list (list R)) : list (list R) :=
  map (fun j => column j rows) (seq 0 c).

(** [a.T] *)
Definition transpose (a : ndarray) : ndarray :=
  match a with
  | A2 c rows => A2 (length rows) (columns c rows)
  | _ => a
  end.

(** [np.dot(a, b)]: multiplication when an operand is a scalar, the inner
    product of two vectors, the matrix product otherwise. *)
Definition np_dot (a b : ndarray) : result ndarray :=
  match a, b with
  | A0 x, _ => Ok (np_map (Rmult x) b)
  | _, A0 y => Ok (np_map (fun x => x * y) a)
  | A1 u, A1 v =>
      if (length u =? length v)%nat then Ok (A0 (dotp u v))
      else Raise ValueError
  | A2 c rows, A1 v =>
      if (c =? length v)%nat then Ok (A1 (map (fun r => dotp r v) rows))
      else Raise ValueError
  | A1 u, A2 c rows =>
      if (length u =? length rows)%nat
      then Ok (A1 (map (dotp u) (columns c rows)))
      else Raise ValueError
  | A2 c1 r1, A2 c2 r2 =>
      if (c1 =? length r2)%nat
      then Ok (A2 c2 (map (fun r => map (dotp r) (columns c2 r2)) r1))
      else Raise ValueError
  end.

(** [a[i]] for a non-negative index. *)
Definition getitem (a : ndarray) (i : nat) : result ndarray :=
  match a with
  | A0 _ => Raise IndexError
  | A1 v => match nth_error v i with
            | Some x => Ok (A0 x)
            | None => Raise IndexError
            end
  | A2 _ rows => match nth_error rows i with
                 | Some r => Ok (A1 r)
                 | None => Raise IndexError
                 end
  end.

(** [a.reshape(n, 1)] *)
Definition reshape_col (a : ndarray) (n : nat) : result ndarray :=
  if (size a =? n * 1)%nat then Ok (A2 1 (map (fun x => [x]) (ravel a)))
  else Raise ValueError.

End Np.

Import Np.

(** ** The notebook's functions (cell 6) *)

(** [norm == s]: the regularisation selector is [None] or a string. *)
Definition norm_is (norm : option string) (s : string) : bool :=
  match norm with
  | Some t => String.eqb t s
  | None => false
  end.

(** [1 / (1 + np.exp(-np.dot(X, w)))] *)
Definition sigmoid (X w : ndarray) : result ndarray :=
  d <- np_dot X w ;;
  s <- np_add (A0 1) (np_exp (np_neg d)) ;;
  np_div (A0 1) s.

Definition gradient (X y w : ndarray) (onept : bool) (norm : option string)
  (lamb : R) : result ndarray :=
  let grad := A0 0 in
  grad <- (if norm_is norm "l1"%string
           then t <- np_mul (A0 lamb) (np_sign w) ;; iadd grad t
           else Ok grad) ;;
  grad <- (if norm_is norm "l2"%string
           then t <- np_mul (A0 (2 * lamb)) w ;; iadd grad t
           else Ok grad) ;;
  if onept then
    s <- sigmoid X w ;;
    d <- np_sub y s ;;
    p <- np_mul d X ;;
    r <- reshape_col p (size w) ;;
    iadd grad (np_neg r)
  else
    s <- sigmoid X w ;;
    d <- np_sub y s ;;
    g <- np_dot (transpose X) d ;;
    q <- np_div (np_neg g) (A0 (INR (size y))) ;;
    iadd grad q.

(** The two parts of [gradient] on a single point, named for the proofs:
    the value of [grad] once the regularisation term is in, and the
    reshaped data term that is then subtracted. *)
Definition gradient_reg (w : ndarray) (norm : option string) (lamb : R)
  : result ndarray :=
  grad <- (if norm_is norm "l1"%string
           then t <- np_mul (A0 lamb) (np_sign w) ;; iadd (A0 0) t
           else Ok (A0 0)) ;;
  if norm_is norm "l2"%string
  then t <- np_mul (A0 (2 * lamb)) w ;; iadd grad t
  else Ok grad.

Definition onept_term (X y w : ndarray) : result ndarray :=
  s <- sigmoid X w ;;
  d <- np_sub y s ;;
  p <- np_mul d X ;;
  reshape_col p (size w).

(** The summand of the log-likelihood for row [i]:
    [y[i] * np.log(sigmoid(X[i], w)) + (1 - y[i]) * np.log(1 - sigmoid(X[i], w))] *)
Definition loss_term (X y w : ndarray) (i : nat) : result ndarray :=
  yi <- getitem y i ;;
  xi <- getitem X i ;;
  s <- sigmoid xi w ;;
  a <- np_mul yi (np_log s) ;;
  b1 <- np_sub (A0 1) yi ;;
  b2 <- np_sub (A0 1) s ;;
  b <- np_mul b1 (np_log b2) ;;
  np_add a b.

(** The [for i in range(X.shape[0])] loop accumulating [sumcost]. *)
Fixpoint loss_loop (X y w : ndarray) (idx : list nat) (sumcost : ndarray)
  : result ndarray :=
  match idx with
  | [] => Ok sumcost
  | i :: idx' =>
      t <- loss_term X y w i ;;
      sumcost' <- iadd sumcost t ;;
      loss_loop X y w idx' sumcost'
  end.

Definition loss (X y w : ndarray) (norm : option string) (lamb : R)
  : result ndarray :=
  n <- shape0 X ;;
  sumcost <- loss_loop X y w (seq 0 n) (A0 0) ;;
  let normcost := A0 0 in
  normcost <- (if norm_is norm "l1"%string
               then np_mul (A0 lamb) (np_sum (np_abs w))
               else Ok normcost) ;;
  normcost <- (if norm_is norm "l2"%string
               then np_mul (A0 lamb) (np_square (linalg_norm w))
               else Ok normcost) ;;
  (* [sumcost / y.size]: with no rows [sumcost] is still the Python int 0,
     and Python's own division raises on a zero divisor; numpy's does not. *)
  avg <- (if ((n =? 0) && (size y =? 0))%nat then Raise ZeroDivisionError
          else np_div sumcost (A0 (INR (size y)))) ;;
  np_sub normcost avg.

(** Python's [sum] of a list, starting from the int 0. *)
Fixpoint py_sum (l : list ndarray) (acc : ndarray) : result ndarray :=
  match l with
  | [] => Ok acc
  | a :: l' => acc' <- np_add acc a ;; py_sum l' acc'
  end.

Definition accuracy (X y w : ndarray) : result ndarray :=
  s <- sigmoid X w ;;
  let results := np_round s in
  hits <- mapM (fun i => r <- getitem results i ;;
                         yi <- getitem y i ;;
                         np_eq r yi)
               (seq 0 (size y)) ;;
  total <- py_sum hits (A0 0) ;;
  (* an empty list sums to the Python int 0, and [0 / 0] raises *)
  if (size y =? 0)%nat then Raise ZeroDivisionError
  else np_div total (A0 (INR (size y))).

(** ** The training loop (cell 8) *)

Record run : Type := mkRun {
  theta : ndarray;
  losses : list ndarray;
  train_accuracies : list ndarray;
  validation_accuracies : list ndarray
}.

Section Training.
Variables X_train Y_train X_val Y_val : ndarray.
Variable epsilon : R.

(** The update computed by the first two statements of the loop body,
    [theta - epsilon * gradient(X_train, Y_train, theta)]. *)
Definition descent_update (w : ndarray) : result ndarray :=
  g <- gradient X_train Y_train w false None 0 ;;
  diff <- np_mul (A0 epsilon) g ;;
  np_sub w diff.

(** One pass through the body of the [for] loop. *)
Definition train_step (st : run) : result run :=
  g <- gradient X_train Y_train (theta st) false None 0 ;;
  diff <- np_mul (A0 epsilon) g ;;
  theta' <- np_sub (theta st) diff ;;
  l <- loss X_train Y_train theta' None 0 ;;
  ta <- accuracy X_train Y_train theta' ;;
  va <- accuracy X_val Y_val theta' ;;
  Ok (mkRun theta'
            (losses st ++ [l])
            (train_accuracies st ++ [ta])
            (validation_accuracies st ++ [va])).

(** [for i in range(num_iterations)] *)
Fixpoint train_loop (num_iterations : nat) (st : run) : result run :=
  match num_iterations with
  | O => Ok st
  | S k => st' <- train_step st ;; train_loop k st'
  end.

(** Cell 8, from the sampled initial weights [theta0]. *)
Definition train (theta0 : ndarray) (num_iterations : nat) : result run :=
  train_loop num_iterations (mkRun theta0 [] [] []).
End Training.

(** ** Reading and splitting the data (cells 3, 4 and 12) *)

Section Loading.
(** Python's [float] on a string of the file, which raises ValueError on a
    malformed field; it is a parameter of the model. *)
Variable py_float : string -> result R.

(** [[float(row[j]) for j in range(ncols)]] *)
Definition load_row (ncols : nat) (row : list string) : result (list R) :=
  mapM (fun j => match nth_error row j with
                 | Some field => py_float field
                 | None => Raise IndexError
                 end)
       (seq 0 ncols).

(** [np.array([[float(x[i][j]) for j in range(len(x[0]))]
               for i in range(len(x))])], where [x] is the list of the
    rows read by [csv.reader]. Without rows the list is empty and the
    array has shape (0,). *)
Definition load_data (x : list (list string)) : result ndarray :=
  match x with
  | [] => Ok (A1 [])
  | first :: _ =>
      rows <- mapM (load_row (length first)) x ;;
      Ok (A2 (length first) rows)
  end.
End Loading.

(** [l[:-k]] for a positive [k] *)
Definition slice_until_last {A : Type} (k : nat) (l : list A) : list A :=
  firstn (length l - k) l.

(** [l[-k:]] for a positive [k] *)
Definition slice_last {A : Type} (k : nat) (l : list A) : list A :=
  skipn (length l - k) l.

(** [a[idx, :]] for an array [idx] of row numbers *)
Definition take_rows (a : ndarray) (idx : list nat) : result ndarray :=
  match a with
  | A2 c rows =>
      rs <- mapM (fun i => match nth_error rows i with
                           | Some r => Ok r
                           | None => Raise IndexError
                           end) idx ;;
      Ok (A2 c rs)
  | _ => Raise IndexError
  end.

(** [a[:, 1:]] *)
Definition drop_first_column (a : ndarray) : result ndarray :=
  match a with
  | A2 c rows => Ok (A2 (c - 1) (map (skipn 1) rows))
  | _ => Raise IndexError
  end.

(** [a[:, 0]] *)
Definition first_column (a : ndarray) : result ndarray :=
  match a with
  | A2 c rows => if (c =? 0)%nat then Raise IndexError
                 else Ok (A1 (column 0 rows))
  | _ => Raise IndexError
  end.

(** [a[:n]] on the first axis *)
Definition first_rows (n : nat) (a : ndarray) : result ndarray :=
  match a with
  | A0 _ => Raise IndexError
  | A1 v => Ok (A1 (firstn n v))
  | A2 c rows => Ok (A2 c (firstn n rows))
  end.

(** [a[:, 1:], a[:, 0]]: the features and the labels of a block of data. *)
Definition features_labels (a : ndarray) : result (ndarray * ndarray) :=
  X <- drop_first_column a ;;
  Y <- first_column a ;;
  Ok (X, Y).

(** The number of rows held out for validation. *)
Definition holdout : nat := 1000.

Record split : Type := mkSplit {
  data_train : ndarray;
  data_val : ndarray;
  X_train : ndarray;
  Y_train : ndarray;
  X_val : ndarray;
  Y_val : ndarray
}.

(** Cell 4, where [shuffle] is the array [np.arange(data.shape[0])] after
    [np.random.shuffle]. *)
Definition split_data (data : ndarray) (shuffle : list nat) : result split :=
  tr <- take_rows data (slice_until_last holdout shuffle) ;;
  va <- take_rows data (slice_last holdout shuffle) ;;
  xy <- features_labels tr ;;
  xy' <- features_labels va ;;
  Ok (mkSplit tr va (fst xy) (snd xy) (fst xy') (snd xy')).

(** Cell 12: [data_train[:50,1:], data_train[:50,0]] *)
Definition small_train_set (tr : ndarray) : result (ndarray * ndarray) :=
  head <- first_rows 50 tr ;;
  features_labels head.

(** ** float64 arithmetic

    The definitions above take scalars to be exact reals.  Two questions
    about [sigmoid] and [accuracy] depend on the rounding of float64, and
    for them the scalar operations are modelled here as IEEE 754 binary64
    with rounding to nearest, ties to even: a finite value is the real
    number it denotes, every operation rounds its exact result, and
    rounding overflows to an infinity and underflows gradually to a signed
    zero.  [np.exp] is taken to round the exact exponential correctly. *)

Module F64.


Definition pow2 (z : Z) : R := powerRZ 2 z.



















End F64.

(** ** The mathematical statement of the model

    The formulas of the specification, over plain lists: a design matrix is
    the list of its rows, label and weight vectors are lists of reals. *)

Module Spec.

(** The regularisation selector of the specification. *)
Inductive regularizer : Type := NoReg | L1 | L2.

(** The value of the [norm] argument that selects a regulariser. *)
Definition selector (reg : regularizer) : option string :=
  match reg with
  | NoReg => None
  | L1 => Some "l1"%string
  | L2 => Some "l2"%string
  end.

(** The logistic function. *)
Definition sigma (t : R) : R := 1 / (1 + exp (- t)).

(** sigmoid(X, w): one probability per row. *)
Definition predict (rows : list (list R)) (w : list R) : list R :=
  map (fun x => sigma (dotp x w)) rows.

(** y - sigmoid(X, w) *)
Definition residual (rows : list (list R)) (ys w : list R) : list R :=
  zip_with Rminus ys (predict rows w).

(** -Xᵗ(y - sigmoid(X, w)) / n, for a matrix with [d] columns. *)
Definition batch_gradient (d : nat) (rows : list (list R)) (ys w : list R)
  : list R :=
  map (fun col => - dotp col (residual rows ys w) / INR (length rows))
      (columns d rows).

(** The regularisation term of the gradient. *)
Definition reg_gradient (reg : regularizer) (lamb : R) (w : list R) : list R :=
  match reg with
  | NoReg => map (fun _ => 0) w
  | L1 => map (fun wi => lamb * sign wi) w
  | L2 => map (fun wi => 2 * lamb * wi) w
  end.

Definition vadd (u v : list R) : list R := zip_with Rplus u v.

(** y·log(p) + (1-y)·log(1-p) *)
Definition log_likelihood (y p : R) : R := y * ln p + (1 - y) * ln (1 - p).

Definition mean (l : list R) : R := Rsum l / INR (length l).

(** The negative average log-likelihood. *)
Definition nll (rows : list (list R)) (ys w : list R) : R :=
  - mean (zip_with log_likelihood ys (predict rows w)).

(** The regularisation penalty of the loss. *)
Definition penalty (reg : regularizer) (lamb : R) (w : list R) : R :=
  match reg with
  | NoReg => 0
  | L1 => lamb * Rsum (map Rabs w)
  | L2 => lamb * Rsum (map (fun wi => wi * wi) w)
  end.

(** The predicted label of a row: 1 when the score is positive, else 0. *)
Definition label (score : R) : R := if Rlt_dec 0 score then 1 else 0.

(** The number of rows whose predicted label is the true label. *)
Definition hits (rows : list (list R)) (ys w : list R) : R :=
  Rsum (zip_with (fun x y => Req_num (round_half_even (sigma (dotp x w))) y)
                 rows ys).

(** The fraction of rows whose predicted label is the true label. *)
Definition accuracy_value (rows : list (list R)) (ys w : list R) : R :=
  hits rows ys w / INR (length rows).

(** The entries of [l] taken in the order [pi] of their indices: with [pi]
    a permutation of the indices this is [l] reordered by [pi]. *)
Definition reorder {A : Type} (pi : list nat) (l : list A) (d : A) : list A :=
  map (fun i => nth i l d) pi.

(** One full-batch gradient-descent update, w - ε * gradient(X, y, w). *)
Definition gd_update (d : nat) (rows : list (list R)) (ys : list R)
  (eps : R) (w : list R) : list R :=
  zip_with Rminus w (map (Rmult eps) (batch_gradient d rows ys w)).

(** The weights after [k] updates. *)
Fixpoint gd_iter (d : nat) (rows : list (list R)) (ys : list R) (eps : R)
  (k : nat) (w : list R) : list R :=
  match k with
  | O => w
  | S k' => gd_iter d rows ys eps k' (gd_update d rows ys eps w)
  end.

(** The values of a measure [f] of the weights after each of the first
    [k] updates. *)
Definition history (f : list R -> R) (d : nat) (rows : list (list R))
  (ys : list R) (eps : R) (k : nat) (w : list R) : list ndarray :=
  map (fun j => A0 (f (gd_iter d rows ys eps j w))) (seq 1 k).

End Spec.

Import Spec.

(** The block of data [a[:, 1:], a[:, 0]] as a list of rows paired with
    their labels. *)
Definition labelled (rows : list (list R)) : list (list R * R) :=
  map (fun r => (skipn 1 r, nth 0 r 0)) rows.

(** The number of labels equal to 0. *)
Definition zero_labels (ys : list R) : R := Rsum (map (Req_num 0) ys).

(** * Properties *)

(** ** The error monad *)

Lemma bind_ok {A B} (a : A) (k : A -> result B) : bind (Ok a) k = k a.
Proof. reflexivity. Qed.

Lemma bind_inv {A B} (c : result A) (k : A -> result B) (b : B) :
  bind c k = Ok b -> exists a, c = Ok a /\ k a = Ok b.
Proof. destruct c as [a|e]; simpl; [eauto | discriminate]. Qed.

(** ** Lists *)

Lemma zip_with_length {A B C} (f : A -> B -> C) u v :
  length u = length v -> length (zip_with f u v) = length u.
Proof.
  revert v; induction u as [|a u IH]; intros [|b v] H; simpl in *;
    try discriminate; auto.
Qed.

Lemma zip_with_map_l {A A' B C} (f : A' -> B -> C) (g : A -> A') u v :
  zip_with f (map g u) v = zip_with (fun a b => f (g a) b) u v.
Proof.
  revert v; induction u as [|a u IH]; intros [|b v]; simpl; f_equal; auto.
Qed.

Lemma zip_with_map_r {A B B' C} (f : A -> B' -> C) (g : B -> B') u v :
  zip_with f u (map g v) = zip_with (fun a b => f a (g b)) u v.
Proof.
  revert v; induction u as [|a u IH]; intros [|b v]; simpl; f_equal; auto.
Qed.

Lemma map_zip_with {A B C D} (g : C -> D) (f : A -> B -> C) u v :
  map g (zip_with f u v) = zip_with (fun a b => g (f a b)) u v.
Proof.
  revert v; induction u as [|a u IH]; intros [|b v]; simpl; f_equal; auto.
Qed.

Lemma zip_with_ext {A B C} (f g : A -> B -> C) u v :
  (forall a b, f a b = g a b) -> zip_with f u v = zip_with g u v.
Proof.
  intros E; revert v; induction u as [|a u IH]; intros [|b v]; simpl;
    f_equal; auto.
Qed.

Lemma zip_with_swap {A B C} (f : A -> B -> C) u v :
  zip_with f u v = zip_with (fun b a => f a b) v u.
Proof.
  revert v; induction u as [|a u IH]; intros [|b v]; simpl; f_equal; auto.
Qed.

Lemma zip_with_const_r {A B C} (f : A -> C) (u : list A) (v : list B) :
  length u = length v -> zip_with (fun a _ => f a) u v = map f u.
Proof.
  revert v; induction u as [|a u IH]; intros [|b v] H; simpl in *;
    try discriminate; f_equal; auto.
Qed.

Lemma zip_with_nth {A B C} (f : A -> B -> C) (da : A) (db : B) u v :
  length u = length v ->
  zip_with f u v
  = map (fun i => f (nth i u da) (nth i v db)) (seq 0 (length u)).
Proof.
  revert v; induction u as [|a u IH]; intros [|b v] H; simpl in *;
    try discriminate; auto.
  f_equal. rewrite <- seq_shift, map_map. apply IH. congruence.
Qed.

Lemma bcast_same {A B C} (f : A -> B -> C) u v :
  length u = length v -> bcast f u v = zip_with f u v.
Proof. intros H. unfold bcast. rewrite H, Nat.eqb_refl. reflexivity. Qed.

Lemma bdim_same n : bdim n n = Ok n.
Proof. unfold bdim. rewrite Nat.eqb_refl. reflexivity. Qed.

Lemma shape_eqb_refl s : shape_eqb s s = true.
Proof. unfold shape_eqb. destruct (list_eq_dec Nat.eq_dec s s); congruence. Qed.

(** ** Array operations on vectors of equal length *)

Lemma np_binop_vec f u v :
  length u = length v -> np_binop f (A1 u) (A1 v) = Ok (A1 (zip_with f u v)).
Proof.
  intros H. simpl. rewrite H, bdim_same. simpl.
  rewrite bcast_same by assumption. reflexivity.
Qed.

Lemma np_binop_scalar_l f x b : np_binop f (A0 x) b = Ok (np_map (f x) b).
Proof. reflexivity. Qed.


Lemma iadd_scalar x b : iadd (A0 x) b = Ok (np_map (Rplus x) b).
Proof. reflexivity. Qed.

Lemma iadd_vec u v :
  length u = length v -> iadd (A1 u) (A1 v) = Ok (A1 (zip_with Rplus u v)).
Proof.
  intros H. unfold iadd, np_add. rewrite np_binop_vec by assumption.
  simpl. rewrite zip_with_length by assumption.
  rewrite shape_eqb_refl. reflexivity.
Qed.

(** ** sigmoid *)

Lemma sigmoid_dot X w :
  sigmoid X w = d <- np_dot X w ;; Ok (np_map sigma d).
Proof.
  unfold sigmoid. destruct (np_dot X w) as [d|e]; simpl; [|reflexivity].
  destruct d as [x|v|c rows]; simpl; unfold sigma;
    rewrite ?map_map; try reflexivity.
  f_equal. f_equal. apply map_ext. intros r.
  rewrite !map_map. reflexivity.
Qed.

Lemma sigmoid_mat_vec d rows ws :
  length ws = d -> sigmoid (A2 d rows) (A1 ws) = Ok (A1 (predict rows ws)).
Proof.
  intros H. rewrite sigmoid_dot. simpl. rewrite H, Nat.eqb_refl. simpl.
  unfold predict. rewrite map_map. reflexivity.
Qed.

Lemma sigmoid_vec_vec x ws :
  length x = length ws -> sigmoid (A1 x) (A1 ws) = Ok (A0 (sigma (dotp x ws))).
Proof.
  intros H. rewrite sigmoid_dot. simpl. rewrite H, Nat.eqb_refl. reflexivity.
Qed.

Lemma sigma_range t : 0 < sigma t < 1.
Proof.
  unfold sigma. pose proof (exp_pos (- t)) as He.
  split.
  - apply Rdiv_lt_0_compat; lra.
  - apply (Rmult_lt_reg_r (1 + exp (- t))); [lra|].
    unfold Rdiv. rewrite Rmult_assoc, Rinv_l by lra. lra.
Qed.





(** ** gradient *)

Lemma columns_length c rows : length (columns c rows) = c.
Proof. unfold columns. rewrite length_map, length_seq. reflexivity. Qed.

Lemma batch_gradient_length d rows ys ws :
  length (batch_gradient d rows ys ws) = d.
Proof. unfold batch_gradient. rewrite length_map. apply columns_length. Qed.

Lemma size_vec v : size (A1 v) = length v.
Proof. unfold size. simpl. lia. Qed.

(** The [else] branch of [gradient] on a matrix and two vectors. *)
Lemma gradient_batch_branch d rows ys ws acc :
  length ws = d -> length ys = length rows ->
  (s <- sigmoid (A2 d rows) (A1 ws) ;;
   r <- np_sub (A1 ys) s ;;
   g <- np_dot (transpose (A2 d rows)) r ;;
   q <- np_div (np_neg g) (A0 (INR (size (A1 ys)))) ;;
   iadd acc q)
  = iadd acc (A1 (batch_gradient d rows ys ws)).
Proof.
  intros Hw Hy. rewrite sigmoid_mat_vec by assumption. cbn [bind].
  unfold np_sub. rewrite np_binop_vec
    by (unfold predict; rewrite length_map; assumption).
  cbn [bind]. fold (residual rows ys ws).
  assert (Hr : length (residual rows ys ws) = length rows).
  { unfold residual. rewrite zip_with_length; [assumption|].
    unfold predict. rewrite length_map. assumption. }
  unfold transpose, np_dot. rewrite Hr, Nat.eqb_refl. cbn [bind].
  rewrite size_vec, Hy. unfold np_div. simpl. rewrite !map_map.
  reflexivity.
Qed.

Lemma gradient_batch_noreg d rows ys ws norm lamb :
  norm_is norm "l1" = false -> norm_is norm "l2" = false ->
  length ws = d -> length ys = length rows ->
  gradient (A2 d rows) (A1 ys) (A1 ws) false norm lamb
  = Ok (A1 (map (Rplus 0) (batch_gradient d rows ys ws))).
Proof.
  intros H1 H2 Hw Hy. unfold gradient. rewrite H1, H2. cbn [bind].
  rewrite gradient_batch_branch by assumption. reflexivity.
Qed.

Lemma gradient_batch_eval d rows ys ws reg lamb :
  length ws = d -> length ys = length rows ->
  gradient (A2 d rows) (A1 ys) (A1 ws) false (selector reg) lamb
  = Ok (A1 (vadd (batch_gradient d rows ys ws) (reg_gradient reg lamb ws))).
Proof.
  intros Hw Hy.
  pose proof (batch_gradient_length d rows ys ws) as Hb.
  destruct reg; unfold vadd, reg_gradient.
  - rewrite gradient_batch_noreg by (assumption || reflexivity).
    rewrite zip_with_map_r, zip_with_const_r by congruence.
    do 2 f_equal. apply map_ext. intros a. lra.
  - unfold gradient. simpl norm_is. unfold np_mul, np_sign.
    rewrite np_binop_scalar_l, !bind_ok, iadd_scalar, !bind_ok.
    cbn [np_map]. rewrite gradient_batch_branch by assumption.
    rewrite iadd_vec by (rewrite !length_map; congruence).
    do 2 f_equal. rewrite !map_map, zip_with_map_l, zip_with_map_r.
    rewrite zip_with_swap. apply zip_with_ext. intros a b. lra.
  - unfold gradient. simpl norm_is. unfold np_mul, np_sign.
    rewrite np_binop_scalar_l, !bind_ok, iadd_scalar, !bind_ok.
    cbn [np_map]. rewrite gradient_batch_branch by assumption.
    rewrite iadd_vec by (rewrite !length_map; congruence).
    do 2 f_equal. rewrite !map_map, zip_with_map_l, zip_with_map_r.
    rewrite zip_with_swap. apply zip_with_ext. intros a b. lra.
Qed.

(** C1: on a design matrix X with n rows and d columns, a label vector y
    of length n and a weight vector w of length d, the batch gradient is
    -Xᵗ(y - sigmoid(X,w)) / n plus the regularisation term: λ·sign(w) for L1,
    2λ·w for L2, the zero vector without regularisation. *)
Theorem gradient_batch_formula (d : nat) (rows : list (list R))
  (ys ws : list R) (reg : regularizer) (lamb : R)
  (Hw : length ws = d) (Hy : length ys = length rows) :
  gradient (A2 d rows) (A1 ys) (A1 ws) false (selector reg) lamb
  = Ok (A1 (vadd (batch_gradient d rows ys ws) (reg_gradient reg lamb ws))).
Proof. apply gradient_batch_eval; assumption. Qed.

Lemma gradient_batch_formula_witness :
  length [1; -1] = 2%nat
  /\ length [0; 1] = length [[1; 2]; [3; 4]]
  /\ gradient (A2 2 [[1; 2]; [3; 4]]) (A1 [0; 1]) (A1 [1; -1]) false
       (selector L1) (1 / 10)
     = Ok (A1 (vadd (batch_gradient 2 [[1; 2]; [3; 4]] [0; 1] [1; -1])
                    (reg_gradient L1 (1 / 10) [1; -1]))).
Proof.
  split; [reflexivity|]. split; [reflexivity|].
  apply (gradient_batch_formula 2 [[1; 2]; [3; 4]] [0; 1] [1; -1] L1 (1 / 10));
    reflexivity.
Defined.

Lemma vadd_zero_r u (w : list R) :
  length u = length w -> vadd u (map (fun _ => 0) w) = u.
Proof.
  intros H. unfold vadd.
  rewrite zip_with_map_r, zip_with_const_r by assumption.
  rewrite <- (map_id u) at 2. apply map_ext. intros a. lra.
Qed.

(** C5: without regularisation and with λ = 0 the batch gradient is
    exactly -Xᵗ(y - sigmoid(X,w)) / n, and L2 regularisation with λ = 0
    returns the very same result. *)
Theorem gradient_zero_strength (d : nat) (rows : list (list R))
  (ys ws : list R)
  (Hw : length ws = d) (Hy : length ys = length rows) :
  gradient (A2 d rows) (A1 ys) (A1 ws) false None 0
  = Ok (A1 (batch_gradient d rows ys ws))
  /\ gradient (A2 d rows) (A1 ys) (A1 ws) false (Some "l2"%string) 0
     = gradient (A2 d rows) (A1 ys) (A1 ws) false None 0.
Proof.
  pose proof (batch_gradient_length d rows ys ws) as Hb.
  assert (E0 : gradient (A2 d rows) (A1 ys) (A1 ws) false None 0
               = Ok (A1 (batch_gradient d rows ys ws))).
  { pose proof (gradient_batch_eval d rows ys ws NoReg 0 Hw Hy) as E.
    cbn [selector reg_gradient] in E. rewrite E.
    rewrite vadd_zero_r by congruence. reflexivity. }
  split; [exact E0|]. rewrite E0.
  pose proof (gradient_batch_eval d rows ys ws L2 0 Hw Hy) as E.
  cbn [selector] in E. rewrite E.
  do 2 f_equal. rewrite <- (vadd_zero_r (batch_gradient d rows ys ws) ws)
    at 2 by congruence.
  unfold reg_gradient. f_equal. apply map_ext. intros a. lra.
Qed.

Lemma gradient_zero_strength_witness :
  length [1; -1] = 2%nat
  /\ length [0; 1] = length [[1; 2]; [3; 4]]
  /\ gradient (A2 2 [[1; 2]; [3; 4]]) (A1 [0; 1]) (A1 [1; -1]) false None 0
     = Ok (A1 (batch_gradient 2 [[1; 2]; [3; 4]] [0; 1] [1; -1]))
  /\ gradient (A2 2 [[1; 2]; [3; 4]]) (A1 [0; 1]) (A1 [1; -1]) false
       (Some "l2"%string) 0
     = gradient (A2 2 [[1; 2]; [3; 4]]) (A1 [0; 1]) (A1 [1; -1]) false None 0.
Proof.
  split; [reflexivity|]. split; [reflexivity|].
  apply (gradient_zero_strength 2 [[1; 2]; [3; 4]] [0; 1] [1; -1]);
    reflexivity.
Defined.

(** ** loss *)

Lemma getitem_vec v i (d : R) :
  (i < length v)%nat -> getitem (A1 v) i = Ok (A0 (nth i v d)).
Proof.
  intros H. simpl. destruct (nth_error v i) as [x|] eqn:E.
  - rewrite (nth_error_nth _ _ d E). reflexivity.
  - apply nth_error_None in E. lia.
Qed.

Lemma getitem_row c rows i (d : list R) :
  (i < length rows)%nat -> getitem (A2 c rows) i = Ok (A1 (nth i rows d)).
Proof.
  intros H. simpl. destruct (nth_error rows i) as [x|] eqn:E.
  - rewrite (nth_error_nth _ _ d E). reflexivity.
  - apply nth_error_None in E. lia.
Qed.

Lemma wf_nth c rows i :
  wf (A2 c rows) -> (i < length rows)%nat -> length (nth i rows []) = c.
Proof.
  simpl. intros H Hi. rewrite Forall_forall in H. apply H.
  apply nth_In. assumption.
Qed.

Lemma loss_term_eval d rows ys ws i :
  wf (A2 d rows) -> length ws = d -> length ys = length rows ->
  (i < length rows)%nat ->
  loss_term (A2 d rows) (A1 ys) (A1 ws) i
  = Ok (A0 (log_likelihood (nth i ys 0) (sigma (dotp (nth i rows []) ws)))).
Proof.
  intros Hwf Hw Hy Hi. unfold loss_term.
  rewrite (getitem_vec ys i 0) by lia. rewrite bind_ok.
  rewrite (getitem_row d rows i []) by assumption. rewrite bind_ok.
  rewrite sigmoid_vec_vec by (rewrite (wf_nth d rows i); auto).
  reflexivity.
Qed.

Lemma loss_loop_eval d rows ys ws idx acc :
  wf (A2 d rows) -> length ws = d -> length ys = length rows ->
  Forall (fun i => (i < length rows)%nat) idx ->
  loss_loop (A2 d rows) (A1 ys) (A1 ws) idx (A0 acc)
  = Ok (A0 (acc + Rsum (map (fun i => log_likelihood (nth i ys 0)
                                        (sigma (dotp (nth i rows []) ws)))
                            idx))).
Proof.
  intros Hwf Hw Hy Hidx. revert acc.
  induction Hidx as [|i idx Hi _ IH]; intros acc;
    cbn [loss_loop map]; unfold Rsum; cbn [fold_right]; fold Rsum.
  - f_equal. f_equal. lra.
  - rewrite loss_term_eval by assumption. rewrite bind_ok.
    rewrite iadd_scalar, bind_ok. cbn [np_map]. rewrite IH.
    f_equal. f_equal. unfold Rsum. lra.
Qed.

Lemma seq_below n : Forall (fun i => (i < n)%nat) (seq 0 n).
Proof. apply Forall_forall. intros i Hi. apply in_seq in Hi. lia. Qed.

Lemma Rsum_sq_nonneg l : 0 <= Rsum (map (fun x => x * x) l).
Proof. induction l as [|a l IH]; simpl; [lra | nra]. Qed.

(** The squared norm computed by the code is the sum of the squares. *)
Lemma norm_squared ws :
  np_square (linalg_norm (A1 ws)) = A0 (Rsum (map (fun x => x * x) ws)).
Proof.
  unfold np_square, linalg_norm. simpl. f_equal.
  rewrite Rmult_1_r. apply sqrt_sqrt. apply Rsum_sq_nonneg.
Qed.

Lemma norm_is_selector reg s :
  norm_is (selector reg) s
  = match reg with
    | NoReg => false
    | L1 => String.eqb "l1" s
    | L2 => String.eqb "l2" s
    end.
Proof. destruct reg; reflexivity. Qed.

(** The negative average log-likelihood part of [loss], for any [norm]. *)
Lemma loss_batch_eval d rows ys ws norm lamb :
  wf (A2 d rows) -> length ws = d -> length ys = length rows ->
  rows <> [] ->
  loss (A2 d rows) (A1 ys) (A1 ws) norm lamb
  = Ok (A0 ((if norm_is norm "l2"
             then lamb * Rsum (map (fun x => x * x) ws)
             else if norm_is norm "l1"
                  then lamb * Rsum (map Rabs ws) else 0)
            - - nll rows ys ws)).
Proof.
  intros Hwf Hw Hy Hne. unfold loss. cbn [shape0 shape bind].
  rewrite loss_loop_eval by (auto using seq_below). rewrite bind_ok.
  assert (Hn : (length rows =? 0)%nat = false).
  { apply Nat.eqb_neq. destruct rows; [congruence | simpl; lia]. }
  rewrite Hn. cbn [andb]. rewrite size_vec, Hy.
  assert (E : 0 + Rsum (map (fun i => log_likelihood (nth i ys 0)
                                (sigma (dotp (nth i rows []) ws)))
                            (seq 0 (length rows)))
              = Rsum (zip_with log_likelihood ys (predict rows ws))).
  { rewrite Rplus_0_l. unfold predict. rewrite zip_with_map_r.
    rewrite (zip_with_nth _ 0 [] ys rows) by assumption.
    rewrite Hy. reflexivity. }
  rewrite E.
  assert (Ea : - nll rows ys ws
               = Rsum (zip_with log_likelihood ys (predict rows ws))
                 / INR (length rows)).
  { unfold nll, mean. rewrite zip_with_length
      by (unfold predict; rewrite length_map; assumption).
    rewrite Hy. lra. }
  rewrite Ea.
  destruct (norm_is norm "l1"), (norm_is norm "l2");
    rewrite ?norm_squared; reflexivity.
Qed.

(** C2: on a non-empty design matrix X, labels y with one entry per row
    and weights w with one entry per column, [loss] is the negative
    average log-likelihood plus the penalty: λ·Σ|w| for L1, λ·‖w‖² for L2
    and 0 without regularisation. *)
Theorem loss_formula (d : nat) (rows : list (list R)) (ys ws : list R)
  (reg : regularizer) (lamb : R)
  (Hwf : wf (A2 d rows)) (Hw : length ws = d)
  (Hy : length ys = length rows) (Hne : rows <> []) :
  loss (A2 d rows) (A1 ys) (A1 ws) (selector reg) lamb
  = Ok (A0 (nll rows ys ws + penalty reg lamb ws)).
Proof.
  rewrite loss_batch_eval by assumption.
  rewrite !norm_is_selector. do 2 f_equal.
  destruct reg; simpl; lra.
Qed.

Lemma loss_formula_witness :
  wf (A2 2 [[1; 2]; [3; 4]])
  /\ length [1; -1] = 2%nat
  /\ length [0; 1] = length [[1; 2]; [3; 4]]
  /\ [[1; 2]; [3; 4]] <> []
  /\ loss (A2 2 [[1; 2]; [3; 4]]) (A1 [0; 1]) (A1 [1; -1]) (selector L2)
       (1 / 10)
     = Ok (A0 (nll [[1; 2]; [3; 4]] [0; 1] [1; -1]
               + penalty L2 (1 / 10) [1; -1])).
Proof.
  assert (Hwf : wf (A2 2 [[1; 2]; [3; 4]])) by (repeat constructor).
  assert (Hne : [[1; 2]; [3; 4]] <> []) by discriminate.
  split; [exact Hwf|]. split; [reflexivity|]. split; [reflexivity|].
  split; [exact Hne|].
  apply (loss_formula 2 [[1; 2]; [3; 4]] [0; 1] [1; -1] L2 (1 / 10) Hwf
           eq_refl eq_refl Hne).
Defined.

(** ** accuracy *)

Lemma sigma_eq t : sigma t * (1 + exp (- t)) = 1.
Proof.
  unfold sigma. pose proof (exp_pos (- t)). field. lra.
Qed.

Lemma sigma_above_half t : 0 < t -> 1 / 2 < sigma t.
Proof.
  intros Ht. pose proof (sigma_eq t) as E. pose proof (sigma_range t) as Hs.
  assert (He : exp (- t) < 1).
  { rewrite <- exp_0. apply exp_increasing. lra. }
  pose proof (exp_pos (- t)). nra.
Qed.

Lemma sigma_below_half t : t <= 0 -> sigma t <= 1 / 2.
Proof.
  intros Ht. pose proof (sigma_eq t) as E. pose proof (sigma_range t) as Hs.
  assert (He : 1 <= exp (- t)).
  { destruct Ht as [Ht|Ht].
    - left. rewrite <- exp_0. apply exp_increasing. lra.
    - right. subst t. rewrite Ropp_0, exp_0. reflexivity. }
  nra.
Qed.

(** Rounding a probability gives the predicted label: 1 for a positive
    score, 0 otherwise (the score 0 gives 0.5, which rounds to 0). *)
Lemma round_sigma t : round_half_even (sigma t) = label t.
Proof.
  pose proof (sigma_range t) as Hs.
  assert (Ei : Int_part (sigma t) = 0%Z).
  { symmetry. apply Int_part_spec. simpl. lra. }
  unfold round_half_even, label. rewrite Ei. simpl.
  rewrite Rminus_0_r.
  destruct (Rlt_dec 0 t) as [Hp|Hn].
  - pose proof (sigma_above_half t Hp).
    destruct (Rlt_dec (sigma t) (1 / 2)); [lra|].
    destruct (Rlt_dec (1 / 2) (sigma t)); [reflexivity | lra].
  - assert (Hle : sigma t <= 1 / 2) by (apply sigma_below_half; lra).
    destruct (Rlt_dec (sigma t) (1 / 2)); [reflexivity|].
    destruct (Rlt_dec (1 / 2) (sigma t)); [lra | reflexivity].
Qed.


Lemma mapM_ok {A B} (f : A -> result B) (g : A -> B) l :
  Forall (fun a => f a = Ok (g a)) l -> mapM f l = Ok (map g l).
Proof.
  induction 1 as [|a l Ha _ IH]; simpl; [reflexivity|].
  rewrite Ha, IH. reflexivity.
Qed.

Lemma py_sum_scalars (h : list R) acc :
  py_sum (map A0 h) (A0 acc) = Ok (A0 (acc + Rsum h)).
Proof.
  revert acc. induction h as [|a h IH]; intros acc; simpl.
  - do 2 f_equal. lra.
  - rewrite IH. do 2 f_equal. lra.
Qed.

(** [accuracy] on a matrix and two vectors, whatever their extents. *)
Lemma accuracy_batch_eval d rows ys ws :
  length ys = length rows ->
  accuracy (A2 d rows) (A1 ys) (A1 ws)
  = if (d =? length ws)%nat
    then if (length rows =? 0)%nat then Raise ZeroDivisionError
         else Ok (A0 (hits rows ys ws / INR (length rows)))
    else Raise ValueError.
Proof.
  intros Hy. unfold accuracy. rewrite sigmoid_dot. cbn [np_dot].
  destruct (d =? length ws)%nat; [|reflexivity].
  rewrite !bind_ok. cbn [np_map np_round].
  rewrite size_vec, Hy.
  set (res := map round_half_even _).
  assert (Hres : length res = length rows)
    by (unfold res; rewrite !length_map; reflexivity).
  rewrite (mapM_ok _ (fun i => A0 (Req_num (nth i res 0) (nth i ys 0)))).
  2:{ apply Forall_forall. intros i Hi. apply in_seq in Hi.
      rewrite (getitem_vec res i 0), (getitem_vec ys i 0) by lia.
      reflexivity. }
  rewrite bind_ok.
  rewrite <- (map_map (fun i => Req_num (nth i res 0) (nth i ys 0)) A0).
  rewrite py_sum_scalars, bind_ok.
  destruct (length rows =? 0)%nat; [reflexivity|].
  unfold np_div. rewrite np_binop_scalar_l. cbn [np_map].
  do 3 f_equal. rewrite Rplus_0_l. unfold hits.
  rewrite <- Hres, <- (zip_with_nth Req_num 0 0 res ys) by congruence.
  unfold res. rewrite !map_map, zip_with_map_l. reflexivity.
Qed.

Lemma Rsum_perm l l' : Permutation l l' -> Rsum l = Rsum l'.
Proof.
  induction 1 as [|a l l' _ IH|a b l|l l' l'' _ IH1 _ IH2]; simpl;
    [reflexivity | rewrite IH; reflexivity | lra | congruence].
Qed.

Lemma zip_with_diag {A B C D} (f : B -> C -> D) (g : A -> B) (h : A -> C) l :
  zip_with f (map g l) (map h l) = map (fun a => f (g a) (h a)) l.
Proof. induction l as [|a l IH]; simpl; f_equal; auto. Qed.

Lemma hits_reorder rows ys ws pi :
  length ys = length rows -> Permutation pi (seq 0 (length rows)) ->
  hits (reorder pi rows []) (reorder pi ys 0) ws = hits rows ys ws.
Proof.
  intros Hy Hpi. unfold hits, reorder. rewrite zip_with_diag.
  rewrite (zip_with_nth _ [] 0 rows ys) by congruence.
  apply Rsum_perm. apply Permutation_map. assumption.
Qed.

(** C6: reordering the rows of X and the entries of y by the same
    permutation of the row indices does not change the accuracy (nor the
    error raised when the weights do not fit or there is no row). *)
Theorem accuracy_row_permutation (d : nat) (rows : list (list R))
  (ys ws : list R) (pi : list nat)
  (Hy : length ys = length rows)
  (Hpi : Permutation pi (seq 0 (length rows))) :
  accuracy (A2 d (reorder pi rows [])) (A1 (reorder pi ys 0)) (A1 ws)
  = accuracy (A2 d rows) (A1 ys) (A1 ws).
Proof.
  assert (Hn : length pi = length rows).
  { rewrite (Permutation_length Hpi). apply length_seq. }
  assert (Hr : length (reorder pi rows []) = length rows)
    by (unfold reorder; rewrite length_map; assumption).
  assert (Hr' : length (reorder pi ys 0) = length (reorder pi rows []))
    by (unfold reorder; rewrite !length_map; reflexivity).
  rewrite !accuracy_batch_eval by assumption.
  rewrite Hr, hits_reorder by assumption. reflexivity.
Qed.

Lemma accuracy_row_permutation_witness :
  length [0; 1; 1] = length [[1; 2]; [3; 4]; [-5; 6]]
  /\ Permutation [2; 0; 1]%nat (seq 0 (length [[1; 2]; [3; 4]; [-5; 6]]))
  /\ accuracy (A2 2 (reorder [2; 0; 1]%nat [[1; 2]; [3; 4]; [-5; 6]] []))
              (A1 (reorder [2; 0; 1]%nat [0; 1; 1] 0)) (A1 [1; -1])
     = accuracy (A2 2 [[1; 2]; [3; 4]; [-5; 6]]) (A1 [0; 1; 1]) (A1 [1; -1]).
Proof.
  assert (Hpi : Permutation [2; 0; 1]%nat
                  (seq 0 (length [[1; 2]; [3; 4]; [-5; 6]]))).
  { simpl. apply Permutation_sym.
    apply (Permutation_cons_app [2%nat] [1%nat] 0%nat). simpl.
    apply perm_swap. }
  split; [reflexivity|]. split; [exact Hpi|].
  apply (accuracy_row_permutation 2 [[1; 2]; [3; 4]; [-5; 6]] [0; 1; 1]
           [1; -1] [2; 0; 1]%nat eq_refl Hpi).
Defined.

(** *** Rescaling the weights *)

Lemma np_map_map f g a : np_map f (np_map g a) = np_map (fun x => f (g x)) a.
Proof.
  destruct a as [x|v|c rows]; simpl; rewrite ?map_map; try reflexivity.
  f_equal. apply map_ext. intros r. apply map_map.
Qed.

Lemma np_map_ext f g a : (forall x, f x = g x) -> np_map f a = np_map g a.
Proof.
  intros E. destruct a as [x|v|c rows]; simpl; f_equal; auto using map_ext.
Qed.

Lemma Rsum_scale c l : Rsum (map (Rmult c) l) = c * Rsum l.
Proof. induction l as [|a l IH]; simpl; [lra | rewrite IH; lra]. Qed.

Lemma dotp_scale_r c u v : dotp u (map (Rmult c) v) = c * dotp u v.
Proof.
  unfold dotp. rewrite <- Rsum_scale, zip_with_map_r, map_zip_with.
  f_equal. apply zip_with_ext. intros a b. lra.
Qed.

Lemma columns_scale c k rows :
  columns k (map (map (Rmult c)) rows) = map (map (Rmult c)) (columns k rows).
Proof.
  unfold columns, column. rewrite map_map. apply map_ext. intros j.
  rewrite !map_map. apply map_ext. intros r.
  rewrite <- (Rmult_0_r c) at 1. apply map_nth.
Qed.

(** [np.dot] is homogeneous in its second argument. *)
Lemma np_dot_scale c X w :
  np_dot X (np_map (Rmult c) w) = d <- np_dot X w ;; Ok (np_map (Rmult c) d).
Proof.
  destruct X as [x|u|k rows], w as [y|v|k' rows']; cbn [np_dot np_map bind];
    rewrite ?length_map.
  - do 2 f_equal. lra.
  - do 2 f_equal. rewrite !map_map. apply map_ext. intros a. lra.
  - do 2 f_equal. rewrite !map_map. apply map_ext. intros r.
    rewrite !map_map. apply map_ext. intros a. lra.
  - do 2 f_equal. rewrite !map_map. apply map_ext. intros a. lra.
  - destruct (length u =? length v)%nat; [|reflexivity].
    cbn [bind np_map]. do 2 f_equal. apply dotp_scale_r.
  - destruct (length u =? length rows')%nat; [|reflexivity].
    cbn [bind np_map]. do 2 f_equal. rewrite columns_scale, !map_map.
    apply map_ext. intros col. apply dotp_scale_r.
  - do 2 f_equal. rewrite !map_map. apply map_ext. intros r.
    rewrite !map_map. apply map_ext. intros a. lra.
  - destruct (k =? length v)%nat; [|reflexivity].
    cbn [bind np_map]. do 2 f_equal. rewrite map_map.
    apply map_ext. intros r. apply dotp_scale_r.
  - destruct (k =? length rows')%nat; [|reflexivity].
    cbn [bind np_map]. do 2 f_equal. rewrite map_map.
    apply map_ext. intros r. rewrite columns_scale, !map_map.
    apply map_ext. intros col. apply dotp_scale_r.
Qed.





(** ** Unknown values of [norm] *)

Lemma norm_is_other norm s : norm <> Some s -> norm_is norm s = false.
Proof.
  intros H. destruct norm as [t|]; simpl; [|reflexivity].
  apply String.eqb_neq. congruence.
Qed.

Lemma gradient_unregularized_eval d rows ys ws norm lamb :
  norm_is norm "l1" = false -> norm_is norm "l2" = false ->
  length ws = d -> length ys = length rows ->
  gradient (A2 d rows) (A1 ys) (A1 ws) false norm lamb
  = Ok (A1 (batch_gradient d rows ys ws)).
Proof.
  intros H1 H2 Hw Hy. rewrite gradient_batch_noreg by assumption.
  do 2 f_equal. rewrite <- (map_id (batch_gradient d rows ys ws)) at 2.
  apply map_ext. intros a. lra.
Qed.

Lemma loss_unregularized_eval d rows ys ws norm lamb :
  norm_is norm "l1" = false -> norm_is norm "l2" = false ->
  wf (A2 d rows) -> length ws = d -> length ys = length rows -> rows <> [] ->
  loss (A2 d rows) (A1 ys) (A1 ws) norm lamb = Ok (A0 (nll rows ys ws)).
Proof.
  intros H1 H2 Hwf Hw Hy Hne. rewrite loss_batch_eval by assumption.
  rewrite H1, H2. do 2 f_equal. lra.
Qed.

(** C9: a [norm] argument other than the strings 'l1' and 'l2' makes
    [gradient] and [loss] behave exactly as without regularisation,
    whatever λ is; in particular, on a well-formed batch neither raises and
    both return the unregularised value. *)
Theorem unknown_norm_is_unregularized (X y w : ndarray) (onept : bool)
  (norm : option string) (lamb : R)
  (H1 : norm <> Some "l1"%string) (H2 : norm <> Some "l2"%string) :
  gradient X y w onept norm lamb = gradient X y w onept None 0
  /\ loss X y w norm lamb = loss X y w None 0
  /\ forall d rows ys ws,
       X = A2 d rows -> y = A1 ys -> w = A1 ws ->
       wf X -> length ws = d -> length ys = length rows -> rows <> [] ->
       gradient X y w false norm lamb = Ok (A1 (batch_gradient d rows ys ws))
       /\ loss X y w norm lamb = Ok (A0 (nll rows ys ws)).
Proof.
  pose proof (norm_is_other norm "l1" H1) as E1.
  pose proof (norm_is_other norm "l2" H2) as E2.
  split; [|split].
  - unfold gradient. rewrite E1, E2. reflexivity.
  - unfold loss. rewrite E1, E2. reflexivity.
  - intros d rows ys ws -> -> -> Hwf Hw Hy Hne. split.
    + apply gradient_unregularized_eval; assumption.
    + apply loss_unregularized_eval; assumption.
Qed.

Lemma unknown_norm_is_unregularized_witness :
  Some "L2"%string <> Some "l1"%string
  /\ Some "L2"%string <> Some "l2"%string
  /\ gradient (A2 2 [[1; 2]; [3; 4]]) (A1 [0; 1]) (A1 [1; -1]) false
       (Some "L2"%string) 5
     = gradient (A2 2 [[1; 2]; [3; 4]]) (A1 [0; 1]) (A1 [1; -1]) false None 0
  /\ loss (A2 2 [[1; 2]; [3; 4]]) (A1 [0; 1]) (A1 [1; -1]) (Some "L2"%string) 5
     = loss (A2 2 [[1; 2]; [3; 4]]) (A1 [0; 1]) (A1 [1; -1]) None 0
  /\ forall d rows ys ws,
       A2 2 [[1; 2]; [3; 4]] = A2 d rows -> A1 [0; 1] = A1 ys ->
       A1 [1; -1] = A1 ws ->
       wf (A2 2 [[1; 2]; [3; 4]]) -> length ws = d ->
       length ys = length rows -> rows <> [] ->
       gradient (A2 2 [[1; 2]; [3; 4]]) (A1 [0; 1]) (A1 [1; -1]) false
         (Some "L2"%string) 5
       = Ok (A1 (batch_gradient d rows ys ws))
       /\ loss (A2 2 [[1; 2]; [3; 4]]) (A1 [0; 1]) (A1 [1; -1])
            (Some "L2"%string) 5
          = Ok (A0 (nll rows ys ws)).
Proof.
  assert (H1 : Some "L2"%string <> Some "l1"%string) by discriminate.
  assert (H2 : Some "L2"%string <> Some "l2"%string) by discriminate.
  split; [exact H1|]. split; [exact H2|].
  exact (unknown_norm_is_unregularized (A2 2 [[1; 2]; [3; 4]]) (A1 [0; 1])
           (A1 [1; -1]) false (Some "L2"%string) 5 H1 H2).
Defined.

(** ** The training loop *)

Section TrainingFacts.
Variables (d : nat) (rows vrows : list (list R)) (ys vys : list R).
Variable eps : R.
Hypothesis Hwf : wf (A2 d rows).
Hypothesis Hy : length ys = length rows.
Hypothesis Hne : rows <> [].
Hypothesis Hvy : length vys = length vrows.
Hypothesis Hvne : vrows <> [].

Lemma gd_update_length ws :
  length ws = d -> length (gd_update d rows ys eps ws) = d.
Proof.
  intros Hw. unfold gd_update.
  rewrite zip_with_length; [assumption|].
  rewrite length_map, batch_gradient_length. assumption.
Qed.

Lemma gd_iter_length k ws :
  length ws = d -> length (gd_iter d rows ys eps k ws) = d.
Proof.
  revert ws. induction k as [|k IH]; intros ws Hw; simpl; [assumption|].
  apply IH. apply gd_update_length. assumption.
Qed.

Lemma accuracy_value_eval rs ls ws :
  length ls = length rs -> rs <> [] -> length ws = d ->
  accuracy (A2 d rs) (A1 ls) (A1 ws) = Ok (A0 (accuracy_value rs ls ws)).
Proof.
  intros Hl Hr Hw. rewrite accuracy_batch_eval by assumption.
  rewrite Hw, Nat.eqb_refl.
  destruct rs; [congruence | reflexivity].
Qed.

Lemma train_step_eval ws ls tas vas :
  length ws = d ->
  train_step (A2 d rows) (A1 ys) (A2 d vrows) (A1 vys) eps
    (mkRun (A1 ws) ls tas vas)
  = let ws' := gd_update d rows ys eps ws in
    Ok (mkRun (A1 ws')
              (ls ++ [A0 (nll rows ys ws')])
              (tas ++ [A0 (accuracy_value rows ys ws')])
              (vas ++ [A0 (accuracy_value vrows vys ws')])).
Proof.
  intros Hw. unfold train_step. cbn [theta losses train_accuracies
                                       validation_accuracies].
  rewrite gradient_unregularized_eval by (assumption || reflexivity).
  rewrite bind_ok. unfold np_mul. rewrite np_binop_scalar_l, bind_ok.
  cbn [np_map]. unfold np_sub.
  rewrite np_binop_vec
    by (rewrite length_map, batch_gradient_length; assumption).
  rewrite bind_ok. fold (gd_update d rows ys eps ws).
  pose proof (gd_update_length ws Hw) as Hw'.
  rewrite loss_unregularized_eval by (assumption || reflexivity).
  rewrite bind_ok, !accuracy_value_eval by assumption.
  reflexivity.
Qed.

Lemma history_S f k ws :
  history f d rows ys eps (S k) ws
  = A0 (f (gd_update d rows ys eps ws))
    :: history f d rows ys eps k (gd_update d rows ys eps ws).
Proof.
  unfold history. cbn [seq map gd_iter]. f_equal.
  rewrite <- seq_shift, map_map. reflexivity.
Qed.

Lemma train_loop_eval k ws ls tas vas :
  length ws = d ->
  train_loop (A2 d rows) (A1 ys) (A2 d vrows) (A1 vys) eps k
    (mkRun (A1 ws) ls tas vas)
  = Ok (mkRun (A1 (gd_iter d rows ys eps k ws))
              (ls ++ history (nll rows ys) d rows ys eps k ws)
              (tas ++ history (accuracy_value rows ys) d rows ys eps k ws)
              (vas ++ history (accuracy_value vrows vys) d rows ys eps k ws)).
Proof.
  revert ws ls tas vas.
  induction k as [|k IH]; intros ws ls tas vas Hw.
  - simpl. unfold history. simpl. rewrite !app_nil_r. reflexivity.
  - cbn [train_loop]. rewrite train_step_eval by assumption.
    cbn zeta. rewrite bind_ok, IH by (apply gd_update_length; assumption).
    rewrite !history_S, <- !app_assoc. reflexivity.
Qed.

Lemma descent_update_eval ws :
  length ws = d ->
  descent_update (A2 d rows) (A1 ys) eps (A1 ws)
  = Ok (A1 (gd_update d rows ys eps ws)).
Proof.
  intros Hw. unfold descent_update.
  rewrite gradient_unregularized_eval by (assumption || reflexivity).
  rewrite bind_ok. unfold np_mul. rewrite np_binop_scalar_l, bind_ok.
  cbn [np_map]. unfold np_sub.
  rewrite np_binop_vec
    by (rewrite length_map, batch_gradient_length; assumption).
  reflexivity.
Qed.

Lemma history_length f k ws : length (history f d rows ys eps k ws) = k.
Proof. unfold history. rewrite length_map, length_seq. reflexivity. Qed.
End TrainingFacts.

(** C3: from initial weights w₀ with one entry per column, [k] iterations
    of the training loop succeed and perform exactly [k] updates
    w ← w - ε·gradient(X, y, w), each gradient taken over the whole training
    set; after each update one loss, one training accuracy and one
    validation accuracy are recorded, so each history has [k] entries; the
    loop has no other exit, and the weights do not depend on the
    validation set. *)
Theorem training_loop_full_batch (d : nat) (rows vrows : list (list R))
  (ys vys : list R) (eps : R) (k : nat) (ws0 : list R)
  (Hwf : wf (A2 d rows)) (Hy : length ys = length rows) (Hne : rows <> [])
  (Hvy : length vys = length vrows) (Hvne : vrows <> [])
  (Hw : length ws0 = d) :
  let w_at := fun j => gd_iter d rows ys eps j ws0 in
  exists st,
    train (A2 d rows) (A1 ys) (A2 d vrows) (A1 vys) eps (A1 ws0) k = Ok st
    /\ theta st = A1 (w_at k)
    /\ (forall j, (j < k)%nat ->
          descent_update (A2 d rows) (A1 ys) eps (A1 (w_at j))
          = Ok (A1 (w_at (S j))))
    /\ losses st = map (fun j => A0 (nll rows ys (w_at j))) (seq 1 k)
    /\ train_accuracies st
       = map (fun j => A0 (accuracy_value rows ys (w_at j))) (seq 1 k)
    /\ validation_accuracies st
       = map (fun j => A0 (accuracy_value vrows vys (w_at j))) (seq 1 k)
    /\ length (losses st) = k
    /\ length (train_accuracies st) = k
    /\ length (validation_accuracies st) = k.
Proof.
  intros w_at. unfold train.
  rewrite (train_loop_eval d rows vrows ys vys eps Hwf Hy Hne Hvy Hvne)
    by assumption.
  eexists. split; [reflexivity|]. cbn [theta losses train_accuracies
                                         validation_accuracies app].
  repeat split; try reflexivity; try apply history_length.
  intros j _. unfold w_at.
  rewrite descent_update_eval
    by (assumption || (apply gd_iter_length; assumption)).
  do 2 f_equal. clear. revert ws0.
  induction j as [|j IH]; intros ws0; [reflexivity|].
  cbn [gd_iter]. rewrite IH. reflexivity.
Qed.

Lemma training_loop_full_batch_witness :
  wf (A2 1 [[0]; [10]])
  /\ length [0; 1] = length [[0]; [10]]
  /\ [[0]; [10]] <> []
  /\ length [1] = length [[3]]
  /\ [[3]] <> []
  /\ length [1 / 10] = 1%nat
  /\ let w_at := fun j => gd_iter 1 [[0]; [10]] [0; 1] (1 / 20) j [1 / 10] in
     exists st,
       train (A2 1 [[0]; [10]]) (A1 [0; 1]) (A2 1 [[3]]) (A1 [1]) (1 / 20)
         (A1 [1 / 10]) 3 = Ok st
       /\ theta st = A1 (w_at 3%nat)
       /\ (forall j, (j < 3)%nat ->
             descent_update (A2 1 [[0]; [10]]) (A1 [0; 1]) (1 / 20)
               (A1 (w_at j))
             = Ok (A1 (w_at (S j))))
       /\ losses st
          = map (fun j => A0 (nll [[0]; [10]] [0; 1] (w_at j))) (seq 1 3)
       /\ train_accuracies st
          = map (fun j => A0 (accuracy_value [[0]; [10]] [0; 1] (w_at j)))
              (seq 1 3)
       /\ validation_accuracies st
          = map (fun j => A0 (accuracy_value [[3]] [1] (w_at j))) (seq 1 3)
       /\ length (losses st) = 3%nat
       /\ length (train_accuracies st) = 3%nat
       /\ length (validation_accuracies st) = 3%nat.
Proof.
  assert (Hwf : wf (A2 1 [[0]; [10]])) by (repeat constructor).
  assert (Hne : [[0]; [10]] <> []) by discriminate.
  assert (Hvne : [[3]] <> []) by discriminate.
  split; [exact Hwf|]. split; [reflexivity|]. split; [exact Hne|].
  split; [reflexivity|]. split; [exact Hvne|]. split; [reflexivity|].
  exact (training_loop_full_batch 1 [[0]; [10]] [[3]] [0; 1] [1] (1 / 20) 3
           [1 / 10] Hwf eq_refl Hne eq_refl Hvne eq_refl).
Defined.

(** C8: with initial weights that have one entry per column of X, every
    update w ← w - ε·gradient(X, y, w) returns a weight vector of the same
    length, and after each of the [k] iterations of training the weight
    vector still has one entry per column of X. *)
Theorem weights_length_invariant (d : nat) (rows vrows : list (list R))
  (ys vys : list R) (eps : R) (k : nat) (ws0 : list R)
  (Hwf : wf (A2 d rows)) (Hy : length ys = length rows) (Hne : rows <> [])
  (Hvy : length vys = length vrows) (Hvne : vrows <> [])
  (Hw : length ws0 = d) :
  (forall ws, length ws = d ->
     exists ws', descent_update (A2 d rows) (A1 ys) eps (A1 ws) = Ok (A1 ws')
                 /\ length ws' = length ws)
  /\ forall j, (j <= k)%nat ->
       exists st ws,
         train (A2 d rows) (A1 ys) (A2 d vrows) (A1 vys) eps (A1 ws0) j = Ok st
         /\ theta st = A1 ws
         /\ length ws = d.
Proof.
  split.
  - intros ws Hws. exists (gd_update d rows ys eps ws). split.
    + apply descent_update_eval; assumption.
    + rewrite gd_update_length; congruence.
  - intros j _. unfold train.
    rewrite (train_loop_eval d rows vrows ys vys eps Hwf Hy Hne Hvy Hvne)
      by assumption.
    eexists. eexists. split; [reflexivity|]. split; [reflexivity|].
    apply gd_iter_length. assumption.
Qed.

Lemma weights_length_invariant_witness :
  wf (A2 1 [[0]; [10]])
  /\ length [0; 1] = length [[0]; [10]]
  /\ [[0]; [10]] <> []
  /\ length [1] = length [[3]]
  /\ [[3]] <> []
  /\ length [1 / 10] = 1%nat
  /\ (forall ws, length ws = 1%nat ->
        exists ws',
          descent_update (A2 1 [[0]; [10]]) (A1 [0; 1]) (1 / 20) (A1 ws)
          = Ok (A1 ws')
          /\ length ws' = length ws)
  /\ forall j, (j <= 3)%nat ->
       exists st ws,
         train (A2 1 [[0]; [10]]) (A1 [0; 1]) (A2 1 [[3]]) (A1 [1]) (1 / 20)
           (A1 [1 / 10]) j = Ok st
         /\ theta st = A1 ws
         /\ length ws = 1%nat.
Proof.
  assert (Hwf : wf (A2 1 [[0]; [10]])) by (repeat constructor).
  assert (Hne : [[0]; [10]] <> []) by discriminate.
  assert (Hvne : [[3]] <> []) by discriminate.
  split; [exact Hwf|]. split; [reflexivity|]. split; [exact Hne|].
  split; [reflexivity|]. split; [exact Hvne|]. split; [reflexivity|].
  exact (weights_length_invariant 1 [[0]; [10]] [[3]] [0; 1] [1] (1 / 20) 3
           [1 / 10] Hwf eq_refl Hne eq_refl Hvne eq_refl).
Defined.

(** ** The single-point branch of [gradient] *)

Lemma bdim_one_r n : bdim n 1 = Ok n.
Proof.
  unfold bdim. destruct (n =? 1)%nat eqn:E; [|reflexivity].
  apply Nat.eqb_eq in E. subst n. reflexivity.
Qed.

Lemma bdim_one_l n : bdim 1 n = Ok n.
Proof.
  unfold bdim. destruct (1 =? n)%nat eqn:E; [|reflexivity].
  apply Nat.eqb_eq in E. subst n. reflexivity.
Qed.

Lemma bcast_singleton_l {A B C} (f : A -> B -> C) a v :
  bcast f [a] v = map (f a) v.
Proof.
  unfold bcast. destruct (length [a] =? length v)%nat eqn:E; [|reflexivity].
  apply Nat.eqb_eq in E. destruct v as [|b [|b' v]]; try discriminate.
  reflexivity.
Qed.

(** Adding a column of shape (n, 1) in place to a vector of shape (d,)
    always fails: the broadcast shape is (n, d). *)
Lemma iadd_vec_col u rows : iadd (A1 u) (A2 1 rows) = Raise ValueError.
Proof.
  unfold iadd, np_add. cbn [np_binop]. rewrite bdim_one_r, bind_ok, bind_ok.
  cbn [shape]. unfold shape_eqb.
  destruct (list_eq_dec Nat.eq_dec _ _) as [E|E]; [discriminate | reflexivity].
Qed.

Lemma gradient_onept_split X y w norm lamb :
  gradient X y w true norm lamb
  = grad <- gradient_reg w norm lamb ;;
    r <- onept_term X y w ;;
    iadd grad (np_neg r).
Proof.
  unfold gradient, gradient_reg, onept_term.
  destruct (if norm_is norm "l1" then _ else _) as [g1|e]; [|reflexivity].
  cbn [bind].
  destruct (if norm_is norm "l2" then _ else _) as [g2|e]; [|reflexivity].
  cbn [bind].
  destruct (sigmoid X w) as [s|e]; [|reflexivity]. cbn [bind].
  destruct (np_sub y s) as [dd|e]; [|reflexivity]. cbn [bind].
  destruct (np_mul dd X) as [p|e]; reflexivity.
Qed.

(** On a point [xs], a scalar label and a weight vector of shape (d,), the
    single-point term is a column of shape (d, 1). *)
Lemma onept_term_vector xs y ws :
  length xs = length ws ->
  onept_term (A1 xs) (A0 y) (A1 ws)
  = Ok (A2 1 (map (fun x => [x])
                  (map (Rmult (y - sigma (dotp xs ws))) xs))).
Proof.
  intros H. unfold onept_term.
  rewrite sigmoid_vec_vec by assumption. rewrite bind_ok.
  unfold np_sub, np_mul. rewrite np_binop_scalar_l, bind_ok.
  cbn [np_map]. rewrite np_binop_scalar_l, bind_ok.
  cbn [np_map]. unfold reshape_col.
  rewrite !size_vec, length_map, H, Nat.mul_1_r, Nat.eqb_refl.
  reflexivity.
Qed.

Lemma onept_term_mismatch xs y ws :
  length xs <> length ws ->
  onept_term (A1 xs) (A0 y) (A1 ws) = Raise ValueError.
Proof.
  intros E. unfold onept_term. rewrite sigmoid_dot. cbn [np_dot].
  apply Nat.eqb_neq in E. rewrite E. reflexivity.
Qed.

(** The same term for weights stored as a column of shape (d, 1). *)
Lemma onept_term_column xs y wcol :
  length xs = length wcol ->
  exists t,
    onept_term (A1 xs) (A0 y) (A2 1 wcol)
    = Ok (A2 1 (map (fun x => [x]) (map (Rmult t) xs))).
Proof.
  intros H. unfold onept_term.
  assert (Hsize : size (A2 1 wcol) = length wcol)
    by (unfold size; cbn [shape fold_right]; lia).
  rewrite sigmoid_dot. cbn [np_dot]. rewrite H, Nat.eqb_refl, !bind_ok.
  unfold columns. cbn [seq map np_map].
  unfold np_sub. rewrite np_binop_scalar_l, bind_ok. cbn [np_map map].
  unfold np_mul. cbn [np_binop length]. rewrite bdim_one_l, !bind_ok.
  rewrite bcast_singleton_l. unfold reshape_col.
  rewrite size_vec, length_map, Hsize, H, Nat.mul_1_r, Nat.eqb_refl.
  cbn [ravel]. eexists. reflexivity.
Qed.

Lemma gradient_reg_none w norm lamb :
  norm_is norm "l1" = false -> norm_is norm "l2" = false ->
  gradient_reg w norm lamb = Ok (A0 0).
Proof. intros H1 H2. unfold gradient_reg. rewrite H1, H2. reflexivity. Qed.

(** The regularisation term has the shape of the weights. *)
Lemma gradient_reg_vector ws reg lamb :
  reg <> NoReg ->
  exists g, gradient_reg (A1 ws) (selector reg) lamb = Ok (A1 g).
Proof.
  intros Hreg. unfold gradient_reg.
  destruct reg; [congruence| |]; cbn [selector norm_is String.eqb Ascii.eqb
                                       Bool.eqb];
    unfold np_mul, np_sign;
    repeat (rewrite bind_ok || rewrite np_binop_scalar_l
            || rewrite iadd_scalar);
    cbn [np_map bind]; eexists; reflexivity.
Qed.

Lemma iadd_col_col g col :
  length g = length col ->
  iadd (A2 1 g) (A2 1 col) = Ok (A2 1 (zip_with (bcast Rplus) g col)).
Proof.
  intros H. unfold iadd, np_add. cbn [np_binop].
  rewrite H, !bdim_same, !bind_ok, bcast_same by assumption.
  cbn [shape]. rewrite zip_with_length, H, shape_eqb_refl by assumption.
  reflexivity.
Qed.

Lemma gradient_reg_column wcol norm lamb :
  exists g, gradient_reg (A2 1 wcol) norm lamb = Ok g
            /\ (g = A0 0 \/ exists rows, g = A2 1 rows
                                        /\ length rows = length wcol).
Proof.
  unfold gradient_reg, np_mul, np_sign. rewrite !np_binop_scalar_l.
  cbn [np_map].
  destruct (norm_is norm "l1"), (norm_is norm "l2");
    rewrite ?bind_ok, ?iadd_scalar, ?bind_ok; cbn [np_map].
  - rewrite iadd_col_col by (rewrite !length_map; reflexivity).
    eexists. split; [reflexivity|]. right. eexists. split; [reflexivity|].
    rewrite zip_with_length; rewrite !length_map; reflexivity.
  - eexists. split; [reflexivity|]. right. eexists. split; [reflexivity|].
    rewrite !length_map; reflexivity.
  - eexists. split; [reflexivity|]. right. eexists. split; [reflexivity|].
    rewrite !length_map; reflexivity.
  - eexists. split; [reflexivity|]. left. reflexivity.
Qed.

(** Without regularisation the single-point gradient of a weight vector
    of shape (d,) is a column of shape (d, 1): it has as many entries as
    the weights. *)
Lemma gradient_onept_vector_unregularized xs y ws norm lamb :
  norm_is norm "l1" = false -> norm_is norm "l2" = false ->
  length xs = length ws ->
  exists rows,
    gradient (A1 xs) (A0 y) (A1 ws) true norm lamb = Ok (A2 1 rows)
    /\ length rows = length ws.
Proof.
  intros H1 H2 H. rewrite gradient_onept_split.
  rewrite gradient_reg_none, onept_term_vector, !bind_ok by assumption.
  cbn [np_neg np_map]. rewrite iadd_scalar. cbn [np_map].
  eexists. split; [reflexivity|]. rewrite !length_map. assumption.
Qed.

(** With L1 or L2 regularisation the single-point gradient of a weight
    vector of shape (d,) always raises: the regularisation term has shape
    (d,), and the column of shape (d, 1) cannot be added to it in place. *)
Lemma gradient_onept_vector_regularized xs y ws reg lamb :
  reg <> NoReg ->
  gradient (A1 xs) (A0 y) (A1 ws) true (selector reg) lamb = Raise ValueError.
Proof.
  intros Hreg. rewrite gradient_onept_split.
  destruct (gradient_reg_vector ws reg lamb Hreg) as (g & ->).
  rewrite bind_ok.
  destruct (Nat.eq_dec (length xs) (length ws)) as [E|E].
  - rewrite onept_term_vector, bind_ok by assumption.
    cbn [np_neg np_map]. apply iadd_vec_col.
  - rewrite onept_term_mismatch by assumption. reflexivity.
Qed.

(** With weights stored as a column of shape (d, 1) the single-point
    gradient is a column of shape (d, 1) for every [norm]. *)
Lemma gradient_onept_column_weights xs y wcol norm lamb :
  length xs = length wcol ->
  exists rows,
    gradient (A1 xs) (A0 y) (A2 1 wcol) true norm lamb = Ok (A2 1 rows)
    /\ length rows = length wcol.
Proof.
  intros H. rewrite gradient_onept_split.
  destruct (onept_term_column xs y wcol H) as (t & Et).
  destruct (gradient_reg_column wcol norm lamb) as (g & Eg & Hg).
  rewrite Eg, Et, !bind_ok. cbn [np_neg np_map].
  destruct Hg as [->|(rows & -> & Hrows)].
  - rewrite iadd_scalar. cbn [np_map]. eexists. split; [reflexivity|].
    rewrite !length_map. assumption.
  - rewrite iadd_col_col by (rewrite !length_map; congruence).
    eexists. split; [reflexivity|].
    rewrite zip_with_length; rewrite ?length_map; congruence.
Qed.

(** C7: the single-point gradient of a weight vector of shape (d,) with L2
    (or L1) regularisation does not return a result with as many entries
    as the weights: it raises ValueError. *)
Theorem gradient_onept_regularized_raises :
  gradient (A1 [1; 2]) (A0 1) (A1 [1 / 2; 1 / 2]) true (Some "l2"%string) 1
  = Raise ValueError
  /\ gradient (A1 [1; 2]) (A0 1) (A1 [1 / 2; 1 / 2]) true (Some "l1"%string) 1
     = Raise ValueError.
Proof. split; reflexivity. Qed.

(** ** Concrete runs *)

(** A score of 0 has probability one half. *)
Example sigmoid_at_zero : sigmoid (A2 1 [[0]]) (A1 [1]) = Ok (A1 [1 / 2]).
Proof.
  rewrite sigmoid_mat_vec by reflexivity. unfold predict, sigma, dotp.
  cbn [map zip_with Rsum fold_right].
  replace (- (0 * 1 + 0)) with 0 by lra. rewrite exp_0.
  replace (1 + 1) with 2 by lra. reflexivity.
Qed.

(** Weights of the wrong length are rejected by [np.dot]. *)
Example sigmoid_shape_mismatch :
  sigmoid (A2 2 [[1; 2]; [3; 4]]) (A1 [1; 2; 3]) = Raise ValueError.
Proof. reflexivity. Qed.

(** The two-point data set X = [[0], [10]], y = [0, 1] is classified
    without error by the weight 1: the score 0 is rounded down to label 0. *)
Example accuracy_two_points :
  accuracy (A2 1 [[0]; [10]]) (A1 [0; 1]) (A1 [1]) = Ok (A0 1).
Proof.
  rewrite accuracy_batch_eval by reflexivity.
  cbn [length Nat.eqb]. do 2 f_equal. unfold hits.
  cbn [zip_with Rsum fold_right]. rewrite !round_sigma.
  unfold dotp, label, Req_num. cbn [zip_with Rsum fold_right INR].
  destruct (Rlt_dec 0 (0 * 1 + 0)) as [H|H]; [lra|].
  destruct (Rlt_dec 0 (10 * 1 + 0)) as [H'|H']; [|lra].
  destruct (Req_dec_T 0 0) as [_|N]; [|lra].
  destruct (Req_dec_T 1 1) as [_|N]; [|lra].
  simpl. lra.
Qed.

(** With no rows, Python's [0 / 0] raises. *)
Example accuracy_no_rows :
  accuracy (A2 1 []) (A1 []) (A1 [1]) = Raise ZeroDivisionError.
Proof. reflexivity. Qed.

(** The same, for [loss]. *)
Example loss_no_rows :
  loss (A2 1 []) (A1 []) (A1 [1]) None 0 = Raise ZeroDivisionError.
Proof. reflexivity. Qed.

(** * Further properties of the notebook's code *)

(** ** accuracy: bounds and mismatched inputs *)

Lemma zip_with_nth_le {A B C} (f : A -> B -> C) (da : A) (db : B) u v :
  (length v <= length u)%nat ->
  zip_with f u v
  = map (fun i => f (nth i u da) (nth i v db)) (seq 0 (length v)).
Proof.
  revert v; induction u as [|a u IH]; intros [|b v] H; simpl in *;
    try reflexivity; try lia.
  f_equal. rewrite <- seq_shift, map_map. apply IH. lia.
Qed.

Lemma zip_with_firstn_l {A B C} (f : A -> B -> C) u v :
  zip_with f (firstn (length v) u) v = zip_with f u v.
Proof.
  revert v; induction u as [|a u IH]; intros [|b v]; simpl;
    try reflexivity.
  f_equal. apply IH.
Qed.

(** [accuracy] on a matrix with at least as many rows as there are labels:
    only the first [y.size] predictions are compared. *)
Lemma accuracy_eval_le d rows ys ws :
  (length ys <= length rows)%nat ->
  accuracy (A2 d rows) (A1 ys) (A1 ws)
  = if (d =? length ws)%nat
    then if (length ys =? 0)%nat then Raise ZeroDivisionError
         else Ok (A0 (hits rows ys ws / INR (length ys)))
    else Raise ValueError.
Proof.
  intros Hy. unfold accuracy. rewrite sigmoid_dot. cbn [np_dot].
  destruct (d =? length ws)%nat; [|reflexivity].
  rewrite !bind_ok. cbn [np_map np_round].
  rewrite size_vec.
  set (res := map round_half_even _).
  assert (Hres : length res = length rows)
    by (unfold res; rewrite !length_map; reflexivity).
  rewrite (mapM_ok _ (fun i => A0 (Req_num (nth i res 0) (nth i ys 0)))).
  2:{ apply Forall_forall. intros i Hi. apply in_seq in Hi.
      rewrite (getitem_vec res i 0), (getitem_vec ys i 0) by lia.
      reflexivity. }
  rewrite bind_ok.
  rewrite <- (map_map (fun i => Req_num (nth i res 0) (nth i ys 0)) A0).
  rewrite py_sum_scalars, bind_ok.
  destruct (length ys =? 0)%nat; [reflexivity|].
  unfold np_div. rewrite np_binop_scalar_l. cbn [np_map].
  do 3 f_equal. rewrite Rplus_0_l. unfold hits.
  rewrite <- (zip_with_nth_le Req_num 0 0 res ys) by lia.
  unfold res. rewrite !map_map, zip_with_map_l. reflexivity.
Qed.

Lemma Req_num_range x y : 0 <= Req_num x y <= 1.
Proof. unfold Req_num. destruct (Req_dec_T x y); lra. Qed.

Lemma Rsum_zip_bounds {A B} (f : A -> B -> R) u v :
  (forall a b, 0 <= f a b <= 1) ->
  0 <= Rsum (zip_with f u v) <= INR (length v).
Proof.
  intros Hf. revert v. induction u as [|a u IH]; intros [|b v];
    cbn [zip_with Rsum fold_right length]; try (simpl; lra).
  - pose proof (pos_INR (length (b :: v))). simpl length in *. lra.
  - fold (Rsum (zip_with f u v)). rewrite S_INR.
    pose proof (Hf a b). pose proof (IH v). lra.
Qed.

(** The accuracy is a fraction: whenever there is at least one label and
    the weights fit, [accuracy] returns a number between 0 and 1. *)
Theorem accuracy_between_0_and_1 (d : nat) (rows : list (list R))
  (ys ws : list R)
  (Hw : length ws = d) (Hy : (length ys <= length rows)%nat)
  (Hne : ys <> []) :
  exists a, accuracy (A2 d rows) (A1 ys) (A1 ws) = Ok (A0 a) /\ 0 <= a <= 1.
Proof.
  rewrite accuracy_eval_le by assumption.
  rewrite Hw, Nat.eqb_refl.
  assert (Hn : (0 < length ys)%nat) by (destruct ys; [congruence|simpl; lia]).
  destruct (length ys =? 0)%nat eqn:E; [apply Nat.eqb_eq in E; lia|].
  eexists. split; [reflexivity|].
  assert (Hpos : 0 < INR (length ys)) by (apply lt_0_INR; assumption).
  pose proof (Rsum_zip_bounds
                (fun x y => Req_num (round_half_even (sigma (dotp x ws))) y)
                rows ys (fun a b => Req_num_range _ b)) as [Hlo Hhi].
  fold (hits rows ys ws) in Hlo, Hhi. split.
  - apply Rmult_le_pos; [assumption|]. left. apply Rinv_0_lt_compat; lra.
  - apply (Rmult_le_reg_r (INR (length ys))); [assumption|].
    unfold Rdiv. rewrite Rmult_assoc, Rinv_l by lra. lra.
Qed.

Lemma accuracy_between_0_and_1_witness :
  length [1; -1] = 2%nat
  /\ (length [0; 1] <= length [[1; 2]; [3; 4]])%nat
  /\ [0; 1] <> []
  /\ exists a, accuracy (A2 2 [[1; 2]; [3; 4]]) (A1 [0; 1]) (A1 [1; -1])
               = Ok (A0 a) /\ 0 <= a <= 1.
Proof.
  assert (Hne : [0; 1] <> []) by discriminate.
  split; [reflexivity|]. split; [simpl; lia|]. split; [exact Hne|].
  apply (accuracy_between_0_and_1 2 [[1; 2]; [3; 4]] [0; 1] [1; -1]
           eq_refl (le_n 2) Hne).
Defined.

(** Rows of X beyond the number of labels are silently ignored: the
    accuracy (or the error) is that of the first [y.size] rows. *)
Theorem accuracy_ignores_surplus_rows (d : nat) (rows : list (list R))
  (ys ws : list R) (Hy : (length ys <= length rows)%nat) :
  accuracy (A2 d rows) (A1 ys) (A1 ws)
  = accuracy (A2 d (firstn (length ys) rows)) (A1 ys) (A1 ws).
Proof.
  rewrite !accuracy_eval_le by (rewrite ?length_firstn; lia).
  unfold hits. rewrite zip_with_firstn_l. reflexivity.
Qed.

Lemma accuracy_ignores_surplus_rows_witness :
  (length [1] <= length [[1; 2]; [3; 4]])%nat
  /\ accuracy (A2 2 [[1; 2]; [3; 4]]) (A1 [1]) (A1 [1; -1])
     = accuracy (A2 2 (firstn (length [1]) [[1; 2]; [3; 4]])) (A1 [1])
         (A1 [1; -1]).
Proof.
  assert (H : (length [1] <= length [[1; 2]; [3; 4]])%nat) by (simpl; lia).
  split; [exact H|].
  apply (accuracy_ignores_surplus_rows 2 [[1; 2]; [3; 4]] [1] [1; -1] H).
Defined.

Lemma mapM_raise {A B} (f : A -> result B) l1 i l2 e :
  Forall (fun a => exists b, f a = Ok b) l1 -> f i = Raise e ->
  mapM f (l1 ++ i :: l2) = Raise e.
Proof.
  intros H Hi. induction H as [|a l1 (b & Hb) _ IH]; simpl.
  - rewrite Hi. reflexivity.
  - rewrite Hb, IH. reflexivity.
Qed.

Lemma seq_split_at n m :
  (n < m)%nat -> seq 0 m = seq 0 n ++ n :: seq (S n) (m - S n).
Proof.
  intros H. replace m with (n + S (m - S n))%nat at 1 by lia.
  rewrite seq_app. reflexivity.
Qed.

(** More labels than rows: the comparison runs past the last prediction
    and raises IndexError. *)
Theorem accuracy_too_few_rows (d : nat) (rows : list (list R))
  (ys ws : list R)
  (Hw : length ws = d) (Hy : (length rows < length ys)%nat) :
  accuracy (A2 d rows) (A1 ys) (A1 ws) = Raise IndexError.
Proof.
  unfold accuracy. rewrite sigmoid_dot. cbn [np_dot].
  rewrite Hw, Nat.eqb_refl, !bind_ok. cbn [np_map np_round].
  rewrite size_vec.
  set (res := map round_half_even _).
  assert (Hres : length res = length rows)
    by (unfold res; rewrite !length_map; reflexivity).
  rewrite (seq_split_at (length rows) (length ys)) by assumption.
  rewrite (mapM_raise _ _ _ _ IndexError); [reflexivity| |].
  - apply Forall_forall. intros i Hi. apply in_seq in Hi.
    rewrite (getitem_vec res i 0), (getitem_vec ys i 0) by lia.
    eexists. reflexivity.
  - cbn [getitem].
    destruct (nth_error res (length rows)) eqn:E; [|reflexivity].
    assert (N : nth_error res (length rows) <> None) by congruence.
    apply nth_error_Some in N. lia.
Qed.

Lemma accuracy_too_few_rows_witness :
  length [1; -1] = 2%nat
  /\ (length [[1; 2]] < length [0; 1])%nat
  /\ accuracy (A2 2 [[1; 2]]) (A1 [0; 1]) (A1 [1; -1]) = Raise IndexError.
Proof.
  assert (H : (length [[1; 2]] < length [0; 1])%nat) by (simpl; lia).
  split; [reflexivity|]. split; [exact H|].
  apply (accuracy_too_few_rows 2 [[1; 2]] [0; 1] [1; -1] eq_refl H).
Defined.

Lemma dotp_zeros x d : dotp x (repeat 0 d) = 0.
Proof.
  unfold dotp. revert d. induction x as [|a x IH]; intros [|d]; simpl;
    try reflexivity.
  fold (Rsum (zip_with Rmult x (repeat 0 d))). rewrite IH. lra.
Qed.

Lemma label_zero : label 0 = 0.
Proof. unfold label. destruct (Rlt_dec 0 0); [lra | reflexivity]. Qed.

(** With all weights 0 every score is 0, every probability is one half
    and rounds down to 0: the accuracy is the fraction of labels equal
    to 0. *)
Theorem accuracy_zero_weights (d : nat) (rows : list (list R)) (ys : list R)
  (Hy : length ys = length rows) (Hne : rows <> []) :
  accuracy (A2 d rows) (A1 ys) (A1 (repeat 0 d))
  = Ok (A0 (zero_labels ys / INR (length rows))).
Proof.
  rewrite accuracy_batch_eval by assumption.
  rewrite repeat_length, Nat.eqb_refl.
  destruct rows as [|r rows]; [congruence|]. cbn [length Nat.eqb].
  do 3 f_equal. unfold hits, zero_labels.
  rewrite (zip_with_ext _ (fun _ y => Req_num 0 y)).
  2:{ intros x y. rewrite round_sigma, dotp_zeros, label_zero. reflexivity. }
  rewrite zip_with_swap, zip_with_const_r by assumption. reflexivity.
Qed.

Lemma accuracy_zero_weights_witness :
  length [0; 1] = length [[1; 2]; [3; 4]]
  /\ [[1; 2]; [3; 4]] <> []
  /\ accuracy (A2 2 [[1; 2]; [3; 4]]) (A1 [0; 1]) (A1 (repeat 0 2%nat))
     = Ok (A0 (zero_labels [0; 1] / INR (length [[1; 2]; [3; 4]]))).
Proof.
  assert (Hne : [[1; 2]; [3; 4]] <> []) by discriminate.
  split; [reflexivity|]. split; [exact Hne|].
  apply (accuracy_zero_weights 2 [[1; 2]; [3; 4]] [0; 1] eq_refl Hne).
Defined.

(** ** loss: sign, value at the origin and mismatched inputs *)

Lemma ln_below_1 p : 0 < p < 1 -> ln p < 0.
Proof. intros [H0 H1]. rewrite <- ln_1. apply ln_increasing; assumption. Qed.

Lemma log_likelihood_nonpos y p :
  0 <= y <= 1 -> 0 < p < 1 -> log_likelihood y p <= 0.
Proof.
  intros Hy Hp. unfold log_likelihood.
  pose proof (ln_below_1 p Hp).
  assert (ln (1 - p) < 0) by (apply ln_below_1; lra).
  nra.
Qed.

Lemma Rsum_nonpos l : Forall (fun x => x <= 0) l -> Rsum l <= 0.
Proof. induction 1; simpl; [lra|]. fold (Rsum l). lra. Qed.

Lemma Rsum_abs_nonneg l : 0 <= Rsum (map Rabs l).
Proof.
  induction l as [|a l IH]; simpl; [lra|].
  fold (Rsum (map Rabs l)). pose proof (Rabs_pos a). lra.
Qed.

Lemma nll_nonneg rows ys ws :
  length ys = length rows -> rows <> [] ->
  Forall (fun y => 0 <= y <= 1) ys -> 0 <= nll rows ys ws.
Proof.
  intros Hy Hne Hl. unfold nll, mean.
  assert (Hs : Rsum (zip_with log_likelihood ys (predict rows ws)) <= 0).
  { apply Rsum_nonpos. clear Hy Hne. unfold predict.
    revert rows. induction Hl as [|y ys Hy0 _ IH]; intros [|r rows]; simpl;
      constructor; auto.
    apply log_likelihood_nonpos; [assumption | apply sigma_range]. }
  rewrite zip_with_length
    by (unfold predict; rewrite length_map; assumption).
  assert (Hn : 0 < INR (length ys)).
  { apply lt_0_INR. rewrite Hy. destruct rows; [congruence | simpl; lia]. }
  assert (0 < / INR (length ys)) by (apply Rinv_0_lt_compat; assumption).
  unfold Rdiv. nra.
Qed.

(** With labels between 0 and 1 and a non-negative strength the loss of
    a non-empty batch is never negative, for each of the three settings
    of [norm]. *)
Theorem loss_nonnegative (d : nat) (rows : list (list R)) (ys ws : list R)
  (reg : regularizer) (lamb : R)
  (Hwf : wf (A2 d rows)) (Hw : length ws = d)
  (Hy : length ys = length rows) (Hne : rows <> [])
  (Hlab : Forall (fun y => 0 <= y <= 1) ys) (Hlamb : 0 <= lamb) :
  exists v, loss (A2 d rows) (A1 ys) (A1 ws) (selector reg) lamb = Ok (A0 v)
            /\ 0 <= v.
Proof.
  rewrite loss_batch_eval by assumption. rewrite !norm_is_selector.
  eexists. split; [reflexivity|].
  pose proof (nll_nonneg rows ys ws Hy Hne Hlab).
  pose proof (Rsum_abs_nonneg ws). pose proof (Rsum_sq_nonneg ws).
  destruct reg; simpl; nra.
Qed.

Lemma loss_nonnegative_witness :
  wf (A2 2 [[1; 2]; [3; 4]])
  /\ length [1; -1] = 2%nat
  /\ length [0; 1] = length [[1; 2]; [3; 4]]
  /\ [[1; 2]; [3; 4]] <> []
  /\ Forall (fun y => 0 <= y <= 1) [0; 1]
  /\ 0 <= 1 / 10
  /\ exists v,
       loss (A2 2 [[1; 2]; [3; 4]]) (A1 [0; 1]) (A1 [1; -1]) (selector L1)
         (1 / 10) = Ok (A0 v)
       /\ 0 <= v.
Proof.
  assert (Hwf : wf (A2 2 [[1; 2]; [3; 4]])) by (repeat constructor).
  assert (Hne : [[1; 2]; [3; 4]] <> []) by discriminate.
  assert (Hlab : Forall (fun y => 0 <= y <= 1) [0; 1])
    by (repeat constructor; lra).
  assert (Hlamb : 0 <= 1 / 10) by lra.
  split; [exact Hwf|]. split; [reflexivity|]. split; [reflexivity|].
  split; [exact Hne|]. split; [exact Hlab|]. split; [exact Hlamb|].
  apply (loss_nonnegative 2 [[1; 2]; [3; 4]] [0; 1] [1; -1] L1 (1 / 10)
           Hwf eq_refl eq_refl Hne Hlab Hlamb).
Defined.

Lemma sigma_0 : sigma 0 = 1 / 2.
Proof. unfold sigma. rewrite Ropp_0, exp_0. lra. Qed.

Lemma ln_half : ln (1 / 2) = - ln 2.
Proof. unfold Rdiv. rewrite Rmult_1_l. apply ln_Rinv. lra. Qed.

Lemma Rsum_const {A} (c : R) (l : list A) :
  Rsum (map (fun _ => c) l) = INR (length l) * c.
Proof.
  induction l as [|a l IH]; [simpl; lra|].
  cbn [map Rsum fold_right length]. fold (Rsum (map (fun _ => c) l)).
  rewrite IH, S_INR. lra.
Qed.

(** With all weights 0 the unregularised loss of a non-empty batch is
    ln 2, whatever the data and the labels. *)
Theorem loss_zero_weights (d : nat) (rows : list (list R)) (ys : list R)
  (Hwf : wf (A2 d rows)) (Hy : length ys = length rows) (Hne : rows <> []) :
  loss (A2 d rows) (A1 ys) (A1 (repeat 0 d)) None 0 = Ok (A0 (ln 2)).
Proof.
  rewrite loss_unregularized_eval
    by (try assumption; try reflexivity; apply repeat_length).
  do 2 f_equal. unfold nll, mean, predict.
  rewrite zip_with_map_r.
  rewrite (zip_with_ext _ (fun _ _ => - ln 2)).
  2:{ intros y x. rewrite dotp_zeros, sigma_0. unfold log_likelihood.
      replace (1 - 1 / 2) with (1 / 2) by lra. rewrite ln_half. lra. }
  rewrite zip_with_const_r, length_map, Rsum_const by assumption.
  assert (Hn : 0 < INR (length ys)).
  { apply lt_0_INR. rewrite Hy. destruct rows; [congruence | simpl; lia]. }
  field. lra.
Qed.

Lemma loss_zero_weights_witness :
  wf (A2 2 [[1; 2]; [3; 4]])
  /\ length [0; 1] = length [[1; 2]; [3; 4]]
  /\ [[1; 2]; [3; 4]] <> []
  /\ loss (A2 2 [[1; 2]; [3; 4]]) (A1 [0; 1]) (A1 (repeat 0 2%nat)) None 0
     = Ok (A0 (ln 2)).
Proof.
  assert (Hwf : wf (A2 2 [[1; 2]; [3; 4]])) by (repeat constructor).
  assert (Hne : [[1; 2]; [3; 4]] <> []) by discriminate.
  split; [exact Hwf|]. split; [reflexivity|]. split; [exact Hne|].
  apply (loss_zero_weights 2 [[1; 2]; [3; 4]] [0; 1] Hwf eq_refl Hne).
Defined.

Lemma loss_term_eval_at d rows ys ws i :
  wf (A2 d rows) -> length ws = d ->
  (i < length rows)%nat -> (i < length ys)%nat ->
  loss_term (A2 d rows) (A1 ys) (A1 ws) i
  = Ok (A0 (log_likelihood (nth i ys 0) (sigma (dotp (nth i rows []) ws)))).
Proof.
  intros Hwf Hw Hi Hi'. unfold loss_term.
  rewrite (getitem_vec ys i 0) by lia. rewrite bind_ok.
  rewrite (getitem_row d rows i []) by assumption. rewrite bind_ok.
  rewrite sigmoid_vec_vec by (rewrite (wf_nth d rows i); auto).
  reflexivity.
Qed.

Lemma loss_loop_app d rows ys ws idx rest acc :
  wf (A2 d rows) -> length ws = d ->
  Forall (fun i => (i < length rows)%nat /\ (i < length ys)%nat) idx ->
  loss_loop (A2 d rows) (A1 ys) (A1 ws) (idx ++ rest) (A0 acc)
  = loss_loop (A2 d rows) (A1 ys) (A1 ws) rest
      (A0 (acc + Rsum (map (fun i => log_likelihood (nth i ys 0)
                                       (sigma (dotp (nth i rows []) ws)))
                           idx))).
Proof.
  intros Hwf Hw Hidx. revert acc.
  induction Hidx as [|i idx [Hi Hi'] _ IH]; intros acc;
    cbn [app loss_loop map]; unfold Rsum; cbn [fold_right]; fold Rsum.
  - rewrite Rplus_0_r. reflexivity.
  - rewrite loss_term_eval_at by assumption. rewrite bind_ok.
    rewrite iadd_scalar, bind_ok. cbn [np_map]. rewrite IH.
    f_equal. f_equal. unfold Rsum. lra.
Qed.

(** Fewer labels than rows: the loop over the rows runs past the last
    label and raises IndexError. *)
Theorem loss_too_few_labels (d : nat) (rows : list (list R)) (ys ws : list R)
  (norm : option string) (lamb : R)
  (Hwf : wf (A2 d rows)) (Hw : length ws = d)
  (Hy : (length ys < length rows)%nat) :
  loss (A2 d rows) (A1 ys) (A1 ws) norm lamb = Raise IndexError.
Proof.
  unfold loss. cbn [shape0 shape bind].
  rewrite (seq_split_at (length ys) (length rows)) by assumption.
  rewrite loss_loop_app; try assumption.
  2:{ apply Forall_forall. intros i Hi. apply in_seq in Hi. lia. }
  cbn [loss_loop]. unfold loss_term at 1. cbn [getitem].
  destruct (nth_error ys (length ys)) eqn:E; [|reflexivity].
  assert (N : nth_error ys (length ys) <> None) by congruence.
  apply nth_error_Some in N. lia.
Qed.

Lemma loss_too_few_labels_witness :
  wf (A2 2 [[1; 2]; [3; 4]])
  /\ length [1; -1] = 2%nat
  /\ (length [1] < length [[1; 2]; [3; 4]])%nat
  /\ loss (A2 2 [[1; 2]; [3; 4]]) (A1 [1]) (A1 [1; -1]) None 0
     = Raise IndexError.
Proof.
  assert (Hwf : wf (A2 2 [[1; 2]; [3; 4]])) by (repeat constructor).
  assert (H : (length [1] < length [[1; 2]; [3; 4]])%nat) by (simpl; lia).
  split; [exact Hwf|]. split; [reflexivity|]. split; [exact H|].
  apply (loss_too_few_labels 2 [[1; 2]; [3; 4]] [1] [1; -1] None 0 Hwf
           eq_refl H).
Defined.

(** More labels than rows: no error is raised; the surplus labels are not
    read, but the sum of the row terms is divided by the number of labels
    and not by the number of rows. *)
Theorem loss_surplus_labels (d : nat) (rows : list (list R)) (ys ws : list R)
  (reg : regularizer) (lamb : R)
  (Hwf : wf (A2 d rows)) (Hw : length ws = d)
  (Hy : (length rows <= length ys)%nat) (Hne : rows <> []) :
  loss (A2 d rows) (A1 ys) (A1 ws) (selector reg) lamb
  = Ok (A0 (penalty reg lamb ws
            - Rsum (zip_with log_likelihood (firstn (length rows) ys)
                             (predict rows ws))
              / INR (length ys))).
Proof.
  unfold loss. cbn [shape0 shape bind].
  rewrite <- (app_nil_r (seq 0 (length rows))).
  rewrite loss_loop_app; try assumption.
  2:{ apply Forall_forall. intros i Hi. apply in_seq in Hi. lia. }
  cbn [loss_loop]. rewrite bind_ok.
  assert (Hn : (length rows =? 0)%nat = false).
  { apply Nat.eqb_neq. destruct rows; [congruence | simpl; lia]. }
  rewrite Hn. cbn [andb]. rewrite size_vec.
  assert (E : 0 + Rsum (map (fun i => log_likelihood (nth i ys 0)
                                (sigma (dotp (nth i rows []) ws)))
                            (seq 0 (length rows)))
              = Rsum (zip_with log_likelihood (firstn (length rows) ys)
                               (predict rows ws))).
  { rewrite Rplus_0_l. unfold predict. rewrite zip_with_map_r.
    rewrite zip_with_firstn_l.
    rewrite (zip_with_nth_le _ 0 [] ys rows) by assumption.
    reflexivity. }
  rewrite E, !norm_is_selector.
  destruct reg; cbn [penalty String.eqb Ascii.eqb Bool.eqb bind];
    rewrite ?norm_squared; reflexivity.
Qed.

Lemma loss_surplus_labels_witness :
  wf (A2 2 [[1; 2]])
  /\ length [1; -1] = 2%nat
  /\ (length [[1; 2]] <= length [0; 1; 1])%nat
  /\ [[1; 2]] <> []
  /\ loss (A2 2 [[1; 2]]) (A1 [0; 1; 1]) (A1 [1; -1]) (selector L2) (1 / 10)
     = Ok (A0 (penalty L2 (1 / 10) [1; -1]
               - Rsum (zip_with log_likelihood
                         (firstn (length [[1; 2]]) [0; 1; 1])
                         (predict [[1; 2]] [1; -1]))
                 / INR (length [0; 1; 1]))).
Proof.
  assert (Hwf : wf (A2 2 [[1; 2]])) by (repeat constructor).
  assert (H : (length [[1; 2]] <= length [0; 1; 1])%nat) by (simpl; lia).
  assert (Hne : [[1; 2]] <> []) by discriminate.
  split; [exact Hwf|]. split; [reflexivity|]. split; [exact H|].
  split; [exact Hne|].
  apply (loss_surplus_labels 2 [[1; 2]] [0; 1; 1] [1; -1] L2 (1 / 10) Hwf
           eq_refl H Hne).
Defined.

(** ** Weights that do not fit, and the empty batch *)

Lemma gradient_reg_vector_ok ws norm lamb :
  exists g, gradient_reg (A1 ws) norm lamb = Ok g.
Proof.
  unfold gradient_reg, np_mul, np_sign. rewrite !np_binop_scalar_l.
  cbn [np_map].
  destruct (norm_is norm "l1"), (norm_is norm "l2");
    rewrite ?bind_ok, ?iadd_scalar, ?bind_ok; cbn [np_map];
    try (eexists; reflexivity).
  rewrite iadd_vec by (rewrite !length_map; reflexivity).
  eexists; reflexivity.
Qed.

Lemma gradient_batch_split X y w norm lamb :
  gradient X y w false norm lamb
  = grad <- gradient_reg w norm lamb ;;
    s <- sigmoid X w ;;
    d <- np_sub y s ;;
    g <- np_dot (transpose X) d ;;
    q <- np_div (np_neg g) (A0 (INR (size y))) ;;
    iadd grad q.
Proof.
  unfold gradient, gradient_reg.
  destruct (if norm_is norm "l1" then _ else _) as [g1|e]; [|reflexivity].
  cbn [bind].
  destruct (if norm_is norm "l2" then _ else _) as [g2|e]; reflexivity.
Qed.

Lemma sigmoid_mismatch d rows ws :
  length ws <> d -> sigmoid (A2 d rows) (A1 ws) = Raise ValueError.
Proof.
  intros H. rewrite sigmoid_dot. cbn [np_dot].
  destruct (d =? length ws)%nat eqn:E; [|reflexivity].
  apply Nat.eqb_eq in E. congruence.
Qed.

(** A weight vector whose length is not the column count of X is rejected
    with ValueError by the batch gradient and by [accuracy], whatever the
    labels, and by [loss] as soon as there is a row and a label to look
    at. *)
Theorem wrong_weight_count_raises (d : nat) (rows : list (list R))
  (ys ws : list R) (norm : option string) (lamb : R)
  (Hw : length ws <> d) :
  gradient (A2 d rows) (A1 ys) (A1 ws) false norm lamb = Raise ValueError
  /\ accuracy (A2 d rows) (A1 ys) (A1 ws) = Raise ValueError
  /\ (wf (A2 d rows) -> rows <> [] -> ys <> [] ->
      loss (A2 d rows) (A1 ys) (A1 ws) norm lamb = Raise ValueError).
Proof.
  split; [|split].
  - rewrite gradient_batch_split.
    destruct (gradient_reg_vector_ok ws norm lamb) as (g & ->).
    rewrite bind_ok, sigmoid_mismatch by assumption. reflexivity.
  - unfold accuracy. rewrite sigmoid_mismatch by assumption. reflexivity.
  - intros Hwf Hne Hy. destruct rows as [|r rows]; [congruence|].
    destruct ys as [|y ys]; [congruence|].
    unfold loss. cbn [shape0 shape bind length seq loss_loop].
    unfold loss_term. cbn [getitem nth_error bind].
    assert (Hr : length r = d) by (inversion Hwf; assumption).
    rewrite sigmoid_dot. cbn [np_dot].
    destruct (length r =? length ws)%nat eqn:E; [|reflexivity].
    apply Nat.eqb_eq in E. congruence.
Qed.

Lemma wrong_weight_count_raises_witness :
  length [1; -1; 4] <> 2%nat
  /\ gradient (A2 2 [[1; 2]; [3; 4]]) (A1 [0; 1]) (A1 [1; -1; 4]) false
       (Some "l2"%string) 1 = Raise ValueError
  /\ accuracy (A2 2 [[1; 2]; [3; 4]]) (A1 [0; 1]) (A1 [1; -1; 4])
     = Raise ValueError
  /\ (wf (A2 2 [[1; 2]; [3; 4]]) -> [[1; 2]; [3; 4]] <> [] -> [0; 1] <> [] ->
      loss (A2 2 [[1; 2]; [3; 4]]) (A1 [0; 1]) (A1 [1; -1; 4])
        (Some "l2"%string) 1 = Raise ValueError).
Proof.
  assert (H : length [1; -1; 4] <> 2%nat) by (simpl; lia).
  split; [exact H|].
  exact (wrong_weight_count_raises 2 [[1; 2]; [3; 4]] [0; 1] [1; -1; 4]
           (Some "l2"%string) 1 H).
Defined.

(** On a batch without rows or labels, [loss] and [accuracy] both raise
    ZeroDivisionError. *)
Theorem empty_batch_raises (d : nat) (ws : list R) (norm : option string)
  (lamb : R) (Hw : length ws = d) :
  loss (A2 d []) (A1 []) (A1 ws) norm lamb = Raise ZeroDivisionError
  /\ accuracy (A2 d []) (A1 []) (A1 ws) = Raise ZeroDivisionError.
Proof.
  split.
  - unfold loss. cbn [shape0 shape bind length seq loss_loop].
    unfold np_mul. rewrite !np_binop_scalar_l.
    destruct (norm_is norm "l1"), (norm_is norm "l2"); reflexivity.
  - rewrite accuracy_batch_eval by reflexivity.
    rewrite Hw, Nat.eqb_refl. reflexivity.
Qed.

Lemma empty_batch_raises_witness :
  length [1; -1] = 2%nat
  /\ loss (A2 2 []) (A1 []) (A1 [1; -1]) (Some "l1"%string) 3
     = Raise ZeroDivisionError
  /\ accuracy (A2 2 []) (A1 []) (A1 [1; -1]) = Raise ZeroDivisionError.
Proof.
  split; [reflexivity|].
  exact (empty_batch_raises 2 [1; -1] (Some "l1"%string) 3 eq_refl).
Defined.

(** ** gradient: labels that do not fit *)

Lemma predict_length rows ws : length (predict rows ws) = length rows.
Proof. unfold predict. apply length_map. Qed.

Lemma bcast_singleton_r {A B C} (f : A -> B -> C) u b :
  length u <> 1%nat -> bcast f u [b] = map (fun a => f a b) u.
Proof.
  intros H. unfold bcast.
  destruct (length u =? length [b])%nat eqn:E.
  - apply Nat.eqb_eq in E. simpl in E. congruence.
  - destruct u as [|a [|a' u]]; reflexivity.
Qed.

(** A label vector whose length is neither the number of rows nor 1 makes
    the batch gradient raise ValueError. *)
Theorem gradient_label_count_mismatch (d : nat) (rows : list (list R))
  (ys ws : list R) (norm : option string) (lamb : R)
  (Hw : length ws = d)
  (Hy : length ys <> length rows) (Hy1 : length ys <> 1%nat) :
  gradient (A2 d rows) (A1 ys) (A1 ws) false norm lamb = Raise ValueError.
Proof.
  rewrite gradient_batch_split.
  destruct (gradient_reg_vector_ok ws norm lamb) as (g & ->).
  rewrite bind_ok, sigmoid_mat_vec, bind_ok by assumption.
  unfold np_sub. cbn [np_binop]. rewrite predict_length. unfold bdim.
  destruct (length ys =? length rows)%nat eqn:E1;
    [apply Nat.eqb_eq in E1; congruence|].
  destruct (length ys =? 1)%nat eqn:E2;
    [apply Nat.eqb_eq in E2; congruence|].
  destruct (length rows =? 1)%nat eqn:E3; [|reflexivity].
  apply Nat.eqb_eq in E3. rewrite !bind_ok.
  destruct (predict rows ws) as [|p [|p' ps]] eqn:Ep;
    pose proof (predict_length rows ws) as Hl; rewrite Ep in Hl;
    simpl in Hl; try lia.
  rewrite bcast_singleton_r by assumption.
  cbn [transpose np_dot]. rewrite length_map, E3.
  destruct (1 =? length ys)%nat eqn:E4; [|reflexivity].
  apply Nat.eqb_eq in E4. congruence.
Qed.

Lemma gradient_label_count_mismatch_witness :
  length [1; -1] = 2%nat
  /\ length [0; 1; 1] <> length [[1; 2]; [3; 4]]
  /\ length [0; 1; 1] <> 1%nat
  /\ gradient (A2 2 [[1; 2]; [3; 4]]) (A1 [0; 1; 1]) (A1 [1; -1]) false None 0
     = Raise ValueError.
Proof.
  assert (H : length [0; 1; 1] <> length [[1; 2]; [3; 4]]) by (simpl; lia).
  assert (H1 : length [0; 1; 1] <> 1%nat) by (simpl; lia).
  split; [reflexivity|]. split; [exact H|]. split; [exact H1|].
  apply (gradient_label_count_mismatch 2 [[1; 2]; [3; 4]] [0; 1; 1] [1; -1]
           None 0 eq_refl H H1).
Defined.




Lemma sign_zero : sign 0 = 0.
Proof.
  unfold sign. destruct (Rlt_dec 0 0); [lra|]. reflexivity.
Qed.

(** [np.sign(0)] is 0: at the all-zero weight vector the L1 term vanishes
    and the L1-regularised gradient is the unregularised one, for every
    strength. *)
Theorem gradient_l1_at_zero_weights (d : nat) (rows : list (list R))
  (ys : list R) (lamb : R) (Hy : length ys = length rows) :
  gradient (A2 d rows) (A1 ys) (A1 (repeat 0 d)) false (Some "l1"%string) lamb
  = gradient (A2 d rows) (A1 ys) (A1 (repeat 0 d)) false None 0.
Proof.
  pose proof (gradient_batch_eval d rows ys (repeat 0 d) L1 lamb
                (repeat_length 0 d) Hy) as E1.
  pose proof (gradient_batch_eval d rows ys (repeat 0 d) NoReg 0
                (repeat_length 0 d) Hy) as E0.
  cbn [selector] in E1, E0. rewrite E1, E0. do 3 f_equal.
  unfold reg_gradient. apply map_ext_in. intros w Hin.
  apply repeat_spec in Hin. subst w. rewrite sign_zero. lra.
Qed.

Lemma gradient_l1_at_zero_weights_witness :
  length [0; 1] = length [[1; 2]; [3; 4]]
  /\ gradient (A2 2 [[1; 2]; [3; 4]]) (A1 [0; 1]) (A1 (repeat 0 2%nat)) false
       (Some "l1"%string) 7
     = gradient (A2 2 [[1; 2]; [3; 4]]) (A1 [0; 1]) (A1 (repeat 0 2%nat)) false
         None 0.
Proof.
  split; [reflexivity|].
  apply (gradient_l1_at_zero_weights 2 [[1; 2]; [3; 4]] [0; 1] 7 eq_refl).
Defined.

(** ** The single-point gradient without regularisation *)

Lemma gradient_onept_eval xs y ws norm lamb :
  norm_is norm "l1" = false -> norm_is norm "l2" = false ->
  length xs = length ws ->
  gradient (A1 xs) (A0 y) (A1 ws) true norm lamb
  = Ok (A2 1 (map (fun x => [- ((y - sigma (dotp xs ws)) * x)]) xs)).
Proof.
  intros H1 H2 H. rewrite gradient_onept_split.
  rewrite gradient_reg_none, onept_term_vector, !bind_ok by assumption.
  cbn [np_neg np_map]. rewrite iadd_scalar. cbn [np_map].
  rewrite !map_map. do 2 f_equal. apply map_ext. intros x.
  cbn [map]. f_equal. lra.
Qed.

(** For one point [x] with a scalar label, weights of shape (d,) and no
    regularisation, the single-point gradient is the column of the
    numbers -(y - sigmoid(x, w)) * x_j: no averaging takes place. *)
Theorem gradient_onept_formula (xs : list R) (y : R) (ws : list R)
  (H : length xs = length ws) :
  gradient (A1 xs) (A0 y) (A1 ws) true None 0
  = Ok (A2 1 (map (fun x => [- ((y - sigma (dotp xs ws)) * x)]) xs)).
Proof. apply gradient_onept_eval; [reflexivity | reflexivity | assumption]. Qed.

Lemma gradient_onept_formula_witness :
  length [1; 2] = length [1 / 2; 1 / 2]
  /\ gradient (A1 [1; 2]) (A0 1) (A1 [1 / 2; 1 / 2]) true None 0
     = Ok (A2 1 (map (fun x => [- ((1 - sigma (dotp [1; 2] [1 / 2; 1 / 2]))
                                    * x)])
                     [1; 2])).
Proof.
  split; [reflexivity|].
  apply (gradient_onept_formula [1; 2] 1 [1 / 2; 1 / 2] eq_refl).
Defined.

Lemma columns_single_row xs :
  columns (length xs) [xs] = map (fun x => [x]) xs.
Proof.
  unfold columns, column. cbn [map].
  induction xs as [|x xs IH]; [reflexivity|].
  cbn [length seq map nth]. f_equal.
  rewrite <- seq_shift, map_map. exact IH.
Qed.

(** The single-point gradient is the batch gradient of the batch made of
    that one row and that one label, reshaped to a column. *)
Theorem gradient_onept_is_one_row_batch (xs : list R) (y : R) (ws : list R)
  (H : length xs = length ws) :
  gradient (A1 xs) (A0 y) (A1 ws) true None 0
  = (g <- gradient (A2 (length xs) [xs]) (A1 [y]) (A1 ws) false None 0 ;;
     reshape_col g (length xs)).
Proof.
  rewrite gradient_onept_eval by (reflexivity || assumption).
  rewrite gradient_unregularized_eval by (reflexivity || congruence).
  rewrite bind_ok. unfold reshape_col.
  rewrite size_vec, batch_gradient_length, Nat.mul_1_r, Nat.eqb_refl.
  cbn [ravel]. do 2 f_equal. unfold batch_gradient.
  rewrite columns_single_row, !map_map. apply map_ext. intros x.
  f_equal. unfold residual, predict, dotp.
  cbn [map zip_with Rsum fold_right length INR]. field.
Qed.

Lemma gradient_onept_is_one_row_batch_witness :
  length [1; 2] = length [1 / 2; 1 / 2]
  /\ gradient (A1 [1; 2]) (A0 1) (A1 [1 / 2; 1 / 2]) true None 0
     = (g <- gradient (A2 (length [1; 2]) [[1; 2]]) (A1 [1])
               (A1 [1 / 2; 1 / 2]) false None 0 ;;
        reshape_col g (length [1; 2])).
Proof.
  split; [reflexivity|].
  apply (gradient_onept_is_one_row_batch [1; 2] 1 [1 / 2; 1 / 2] eq_refl).
Defined.

(** ** sigmoid: symmetry *)

Lemma sigma_opp t : sigma (- t) = 1 - sigma t.
Proof.
  unfold sigma. rewrite Ropp_involutive, exp_Ropp.
  pose proof (exp_pos t). field. lra.
Qed.

(** Negating the weights turns every probability p into 1 - p, for
    arguments of any shape (and the same error is raised when the shapes
    do not fit). *)
Theorem sigmoid_negated_weights (X w : ndarray) :
  sigmoid X (np_neg w) = (s <- sigmoid X w ;; np_sub (A0 1) s).
Proof.
  rewrite !sigmoid_dot. unfold np_neg.
  rewrite (np_map_ext Ropp (Rmult (-1)) w) by (intros x; lra).
  rewrite np_dot_scale.
  destruct (np_dot X w) as [d|e]; cbn [bind]; [|reflexivity].
  unfold np_sub. rewrite np_binop_scalar_l. f_equal.
  rewrite !np_map_map. apply np_map_ext. intros t.
  replace (-1 * t) with (- t) by lra. apply sigma_opp.
Qed.

(** ** The training loop: composition, histories and the validation set *)

(** Running [j + k] iterations is running [j] iterations and then [k]
    more from the state reached, for any data (errors included). *)
Theorem train_loop_add (X_tr Y_tr X_va Y_va : ndarray) (eps : R) (j k : nat)
  (st : run) :
  train_loop X_tr Y_tr X_va Y_va eps (j + k) st
  = (st' <- train_loop X_tr Y_tr X_va Y_va eps j st ;;
     train_loop X_tr Y_tr X_va Y_va eps k st').
Proof.
  revert st. induction j as [|j IH]; intros st; cbn [Nat.add train_loop].
  - reflexivity.
  - destruct (train_step X_tr Y_tr X_va Y_va eps st) as [st1|e];
      cbn [bind]; [apply IH | reflexivity].
Qed.

Lemma train_step_histories X_tr Y_tr X_va Y_va eps st st' :
  train_step X_tr Y_tr X_va Y_va eps st = Ok st' ->
  exists l t v,
    losses st' = losses st ++ [l]
    /\ train_accuracies st' = train_accuracies st ++ [t]
    /\ validation_accuracies st' = validation_accuracies st ++ [v].
Proof.
  unfold train_step. intros H.
  apply bind_inv in H. destruct H as (g & _ & H).
  apply bind_inv in H. destruct H as (diff & _ & H).
  apply bind_inv in H. destruct H as (th & _ & H).
  apply bind_inv in H. destruct H as (l & _ & H).
  apply bind_inv in H. destruct H as (t & _ & H).
  apply bind_inv in H. destruct H as (v & _ & H).
  injection H as <-. exists l, t, v. auto.
Qed.

(** Whatever the data, a run of [k] iterations that completes has only
    appended to the three histories, exactly [k] entries to each: earlier
    entries are never changed and the histories stay aligned. *)
Theorem train_loop_histories (X_tr Y_tr X_va Y_va : ndarray) (eps : R)
  (k : nat) (st st' : run)
  (H : train_loop X_tr Y_tr X_va Y_va eps k st = Ok st') :
  exists ls ts vs,
    losses st' = losses st ++ ls
    /\ train_accuracies st' = train_accuracies st ++ ts
    /\ validation_accuracies st' = validation_accuracies st ++ vs
    /\ length ls = k /\ length ts = k /\ length vs = k.
Proof.
  revert st H. induction k as [|k IH]; intros st H; cbn [train_loop] in H.
  - injection H as <-. exists [], [], []. rewrite !app_nil_r.
    repeat split; reflexivity.
  - apply bind_inv in H. destruct H as (st1 & Hstep & H).
    apply train_step_histories in Hstep.
    destruct Hstep as (l & t & v & El & Et & Ev).
    destruct (IH st1 H) as (ls & ts & vs & E1 & E2 & E3 & L1 & L2 & L3).
    exists (l :: ls), (t :: ts), (v :: vs).
    rewrite E1, E2, E3, El, Et, Ev, <- !app_assoc. cbn [app length].
    repeat split; congruence.
Qed.

Lemma train_loop_histories_witness :
  exists st',
    train_loop (A2 1 [[0]; [10]]) (A1 [0; 1]) (A2 1 [[3]]) (A1 [1]) (1 / 20)
      2 (mkRun (A1 [1 / 10]) [] [] []) = Ok st'
    /\ exists ls ts vs,
         losses st' = [] ++ ls
         /\ train_accuracies st' = [] ++ ts
         /\ validation_accuracies st' = [] ++ vs
         /\ length ls = 2%nat /\ length ts = 2%nat /\ length vs = 2%nat.
Proof.
  assert (Hwf : wf (A2 1 [[0]; [10]])) by (repeat constructor).
  assert (Hne : [[0]; [10]] <> []) by discriminate.
  assert (Hvne : [[3]] <> []) by discriminate.
  pose proof (train_loop_eval 1 [[0]; [10]] [[3]] [0; 1] [1] (1 / 20) Hwf
                eq_refl Hne eq_refl Hvne 2 [1 / 10] [] [] [] eq_refl) as E.
  eexists. split; [exact E|].
  exact (train_loop_histories _ _ _ _ _ 2 (mkRun (A1 [1 / 10]) [] [] []) _ E).
Defined.

(** The validation set takes no part in the update, but it is evaluated
    in every iteration: when its column count differs from that of the
    training set, training stops with ValueError in the first iteration. *)
Theorem train_wrong_validation_columns (d vd : nat)
  (rows vrows : list (list R)) (ys vys : list R) (eps : R) (k : nat)
  (ws0 : list R)
  (Hwf : wf (A2 d rows)) (Hy : length ys = length rows) (Hne : rows <> [])
  (Hw : length ws0 = d) (Hvd : vd <> d) :
  train (A2 d rows) (A1 ys) (A2 vd vrows) (A1 vys) eps (A1 ws0) (S k)
  = Raise ValueError.
Proof.
  unfold train. cbn [train_loop]. unfold train_step. cbn [theta].
  rewrite gradient_unregularized_eval by (assumption || reflexivity).
  rewrite bind_ok. unfold np_mul. rewrite np_binop_scalar_l, bind_ok.
  cbn [np_map]. unfold np_sub.
  rewrite np_binop_vec
    by (rewrite length_map, batch_gradient_length; assumption).
  rewrite bind_ok. fold (gd_update d rows ys eps ws0).
  pose proof (gd_update_length d rows ys eps ws0 Hw) as Hw'.
  rewrite loss_unregularized_eval by (assumption || reflexivity).
  rewrite bind_ok, accuracy_value_eval, bind_ok by assumption.
  unfold accuracy at 1. rewrite sigmoid_mismatch by congruence.
  reflexivity.
Qed.

Lemma train_wrong_validation_columns_witness :
  wf (A2 1 [[0]; [10]])
  /\ length [0; 1] = length [[0]; [10]]
  /\ [[0]; [10]] <> []
  /\ length [1 / 10] = 1%nat
  /\ 2%nat <> 1%nat
  /\ train (A2 1 [[0]; [10]]) (A1 [0; 1]) (A2 2 [[3; 4]]) (A1 [1]) (1 / 20)
       (A1 [1 / 10]) 3 = Raise ValueError.
Proof.
  assert (Hwf : wf (A2 1 [[0]; [10]])) by (repeat constructor).
  assert (Hne : [[0]; [10]] <> []) by discriminate.
  assert (Hvd : 2%nat <> 1%nat) by lia.
  split; [exact Hwf|]. split; [reflexivity|]. split; [exact Hne|].
  split; [reflexivity|]. split; [exact Hvd|].
  apply (train_wrong_validation_columns 1 2 [[0]; [10]] [[3; 4]] [0; 1] [1]
           (1 / 20) 2 [1 / 10] Hwf eq_refl Hne eq_refl Hvd).
Defined.

(** With an empty validation set training stops with ZeroDivisionError
    in the first iteration. *)
Theorem train_empty_validation_set (d : nat) (rows : list (list R))
  (ys : list R) (eps : R) (k : nat) (ws0 : list R)
  (Hwf : wf (A2 d rows)) (Hy : length ys = length rows) (Hne : rows <> [])
  (Hw : length ws0 = d) :
  train (A2 d rows) (A1 ys) (A2 d []) (A1 []) eps (A1 ws0) (S k)
  = Raise ZeroDivisionError.
Proof.
  unfold train. cbn [train_loop]. unfold train_step. cbn [theta].
  rewrite gradient_unregularized_eval by (assumption || reflexivity).
  rewrite bind_ok. unfold np_mul. rewrite np_binop_scalar_l, bind_ok.
  cbn [np_map]. unfold np_sub.
  rewrite np_binop_vec
    by (rewrite length_map, batch_gradient_length; assumption).
  rewrite bind_ok. fold (gd_update d rows ys eps ws0).
  pose proof (gd_update_length d rows ys eps ws0 Hw) as Hw'.
  rewrite loss_unregularized_eval by (assumption || reflexivity).
  rewrite bind_ok, accuracy_value_eval, bind_ok by assumption.
  rewrite (accuracy_batch_eval d [] []) by reflexivity.
  rewrite Hw', Nat.eqb_refl. reflexivity.
Qed.

Lemma train_empty_validation_set_witness :
  wf (A2 1 [[0]; [10]])
  /\ length [0; 1] = length [[0]; [10]]
  /\ [[0]; [10]] <> []
  /\ length [1 / 10] = 1%nat
  /\ train (A2 1 [[0]; [10]]) (A1 [0; 1]) (A2 1 []) (A1 []) (1 / 20)
       (A1 [1 / 10]) 3 = Raise ZeroDivisionError.
Proof.
  assert (Hwf : wf (A2 1 [[0]; [10]])) by (repeat constructor).
  assert (Hne : [[0]; [10]] <> []) by discriminate.
  split; [exact Hwf|]. split; [reflexivity|]. split; [exact Hne|].
  split; [reflexivity|].
  apply (train_empty_validation_set 1 [[0]; [10]] [0; 1] (1 / 20) 2
           [1 / 10] Hwf eq_refl Hne eq_refl).
Defined.

(** ** Reading the file (cell 3) *)

Lemma mapM_Forall2 {A B} (f : A -> result B) l bs :
  mapM f l = Ok bs -> Forall2 (fun a b => f a = Ok b) l bs.
Proof.
  revert bs. induction l as [|a l IH]; intros bs H; simpl in H.
  - injection H as <-. constructor.
  - apply bind_inv in H. destruct H as (b & Hb & H).
    apply bind_inv in H. destruct H as (bs' & Hbs & H).
    injection H as <-. constructor; auto.
Qed.

Lemma mapM_length {A B} (f : A -> result B) l bs :
  mapM f l = Ok bs -> length bs = length l.
Proof.
  intros H. apply mapM_Forall2 in H. symmetry.
  apply (Forall2_length H).
Qed.

Lemma mapM_ok_in {A B} (f : A -> result B) l bs a :
  mapM f l = Ok bs -> In a l -> exists b, f a = Ok b.
Proof.
  revert bs. induction l as [|a0 l IH]; intros bs H Hin; [destruct Hin|].
  simpl in H. apply bind_inv in H. destruct H as (b & Hb & H).
  apply bind_inv in H. destruct H as (bs' & Hbs & _).
  destruct Hin as [->|Hin]; [eauto | eapply IH; eauto].
Qed.

Lemma mapM_ext_in {A B} (f g : A -> result B) l :
  (forall a, In a l -> f a = g a) -> mapM f l = mapM g l.
Proof.
  induction l as [|a l IH]; intros H; simpl; [reflexivity|].
  rewrite (H a) by (left; reflexivity).
  rewrite IH by (intros b Hb; apply H; right; assumption).
  reflexivity.
Qed.

Lemma mapM_map {A B C} (f : B -> result C) (g : A -> B) l :
  mapM f (map g l) = mapM (fun a => f (g a)) l.
Proof.
  induction l as [|a l IH]; simpl; [reflexivity|]. rewrite IH. reflexivity.
Qed.

Section LoadingFacts.
Variable py_float : string -> result R.

Lemma load_row_length ncols row r :
  load_row py_float ncols row = Ok r -> length r = ncols.
Proof.
  unfold load_row. intros H. apply mapM_length in H.
  rewrite H. apply length_seq.
Qed.

Lemma load_row_firstn ncols row :
  load_row py_float ncols (firstn ncols row) = load_row py_float ncols row.
Proof.
  unfold load_row. apply mapM_ext_in. intros j Hj. apply in_seq in Hj.
  rewrite nth_error_firstn.
  destruct (Nat.ltb_spec j ncols) as [_|Hge]; [reflexivity | lia].
Qed.

Lemma load_row_short ncols row r :
  (length row < ncols)%nat -> load_row py_float ncols row <> Ok r.
Proof.
  unfold load_row. intros Hlen H.
  assert (Hin : In (length row) (seq 0 ncols)) by (apply in_seq; lia).
  destruct (mapM_ok_in _ _ _ _ H Hin) as (b & Hb).
  rewrite (proj2 (nth_error_None row (length row)) (le_n _)) in Hb.
  discriminate.
Qed.
End LoadingFacts.

(** Whenever reading succeeds the data is rectangular: without rows it is
    the empty array of shape (0,), otherwise a matrix with one row per
    row of the file, each of the length of the first row of the file. *)
Theorem load_data_rectangular (py_float : string -> result R)
  (x : list (list string)) (a : ndarray)
  (H : load_data py_float x = Ok a) :
  wf a
  /\ match x with
     | [] => a = A1 []
     | first :: _ => exists rows, a = A2 (length first) rows
                                  /\ length rows = length x
     end.
Proof.
  destruct x as [|first rest]; cbn [load_data] in H.
  - injection H as <-. split; [exact I | reflexivity].
  - apply bind_inv in H. destruct H as (rows & Hrows & H).
    injection H as <-. split.
    + cbn [wf]. apply mapM_Forall2 in Hrows.
      clear -Hrows. induction Hrows as [|row r l bs Hr _ IH];
        constructor; [|assumption].
      apply (load_row_length py_float _ row). assumption.
    + exists rows. split; [reflexivity|].
      apply (mapM_length _ _ _ Hrows).
Qed.

Lemma load_data_rectangular_witness :
  load_data (fun _ => Ok 1) [["3"; "4"]; ["5"; "6"]; ["7"; "8"]]%string
  = Ok (A2 2 [[1; 1]; [1; 1]; [1; 1]])
  /\ wf (A2 2 [[1; 1]; [1; 1]; [1; 1]])
  /\ exists rows, A2 2 [[1; 1]; [1; 1]; [1; 1]] = A2 (length ["3"; "4"]%string) rows
                  /\ length rows
                     = length [["3"; "4"]; ["5"; "6"]; ["7"; "8"]]%string.
Proof.
  split; [reflexivity|].
  exact (load_data_rectangular (fun _ => Ok 1)
           [["3"; "4"]; ["5"; "6"]; ["7"; "8"]]%string
           (A2 2 [[1; 1]; [1; 1]; [1; 1]]) eq_refl).
Defined.

(** Fields beyond the length of the first row of the file are silently
    dropped: the result (array or error) is that of the file cut to the
    width of its first row. *)
Theorem load_data_truncates_long_rows (py_float : string -> result R)
  (first : list string) (rest : list (list string)) :
  load_data py_float (first :: rest)
  = load_data py_float (map (firstn (length first)) (first :: rest)).
Proof.
  cbn [load_data map]. rewrite !firstn_all. cbn [mapM].
  rewrite mapM_map.
  rewrite (mapM_ext_in
             (fun row => load_row py_float (length first)
                           (firstn (length first) row))
             (load_row py_float (length first)));
    [reflexivity|].
  intros row _. apply load_row_firstn.
Qed.

(** A row of the file shorter than its first row makes reading fail. *)
Theorem load_data_short_row (py_float : string -> result R)
  (first : list string) (rest : list (list string)) (row : list string)
  (a : ndarray)
  (Hin : In row rest) (Hlen : (length row < length first)%nat) :
  load_data py_float (first :: rest) <> Ok a.
Proof.
  cbn [load_data]. intros H.
  apply bind_inv in H. destruct H as (rows & Hrows & _).
  destruct (mapM_ok_in _ _ _ row Hrows (or_intror Hin)) as (r & Hr).
  apply (load_row_short py_float _ _ _ Hlen Hr).
Qed.

Lemma load_data_short_row_witness :
  In ["5"]%string [["5"]]%string
  /\ (length ["5"]%string < length ["3"; "4"]%string)%nat
  /\ load_data (fun _ => Ok 1) [["3"; "4"]; ["5"]]%string
     <> Ok (A2 2 [[1; 1]; [1; 1]]).
Proof.
  assert (Hin : In ["5"]%string [["5"]]%string) by (left; reflexivity).
  assert (Hlen : (length ["5"]%string < length ["3"; "4"]%string)%nat)
    by (simpl; lia).
  split; [exact Hin|]. split; [exact Hlen|].
  apply (load_data_short_row (fun _ => Ok 1) ["3"; "4"]%string
           [["5"]]%string ["5"]%string (A2 2 [[1; 1]; [1; 1]]) Hin Hlen).
Defined.

(** ** Splitting into training and validation data (cells 4 and 12) *)

Lemma slices_partition {A} k (l : list A) :
  slice_until_last k l ++ slice_last k l = l.
Proof. unfold slice_until_last, slice_last. apply firstn_skipn. Qed.

Lemma slice_last_length {A} k (l : list A) :
  length (slice_last k l) = Nat.min (length l) k.
Proof. unfold slice_last. rewrite length_skipn. lia. Qed.

Lemma slice_until_last_length {A} k (l : list A) :
  length (slice_until_last k l) = (length l - k)%nat.
Proof. unfold slice_until_last. rewrite length_firstn. lia. Qed.

Lemma take_rows_ok c rows idx :
  Forall (fun i => (i < length rows)%nat) idx ->
  take_rows (A2 c rows) idx = Ok (A2 c (map (fun i => nth i rows []) idx)).
Proof.
  intros H. unfold take_rows.
  rewrite (mapM_ok _ (fun i => nth i rows [])); [reflexivity|].
  apply Forall_forall. intros i Hi.
  rewrite Forall_forall in H. specialize (H i Hi).
  destruct (nth_error rows i) as [r|] eqn:E.
  - rewrite (nth_error_nth _ _ [] E). reflexivity.
  - apply nth_error_None in E. lia.
Qed.

Lemma map_nth_all {A} (l : list A) d :
  map (fun i => nth i l d) (seq 0 (length l)) = l.
Proof.
  induction l as [|a l IH]; [reflexivity|].
  cbn [length seq map nth]. f_equal.
  rewrite <- seq_shift, map_map. exact IH.
Qed.

Lemma features_labels_ok c rows :
  c <> 0%nat ->
  features_labels (A2 c rows)
  = Ok (A2 (c - 1) (map (skipn 1) rows), A1 (column 0 rows)).
Proof.
  intros Hc. unfold features_labels. cbn [drop_first_column first_column bind].
  destruct (c =? 0)%nat eqn:E; [apply Nat.eqb_eq in E; congruence|].
  reflexivity.
Qed.

Lemma split_data_eval c rows shuffle :
  c <> 0%nat -> Permutation shuffle (seq 0 (length rows)) ->
  let tr := map (fun i => nth i rows []) (slice_until_last holdout shuffle) in
  let va := map (fun i => nth i rows []) (slice_last holdout shuffle) in
  split_data (A2 c rows) shuffle
  = Ok (mkSplit (A2 c tr) (A2 c va)
                (A2 (c - 1) (map (skipn 1) tr)) (A1 (column 0 tr))
                (A2 (c - 1) (map (skipn 1) va)) (A1 (column 0 va))).
Proof.
  intros Hc Hperm tr va.
  assert (Hall : Forall (fun i => (i < length rows)%nat) shuffle).
  { apply Forall_forall. intros i Hi.
    apply (Permutation_in _ Hperm) in Hi. apply in_seq in Hi. lia. }
  rewrite <- (slices_partition holdout shuffle) in Hall.
  apply Forall_app in Hall. destruct Hall as [H1 H2].
  unfold split_data.
  rewrite !take_rows_ok, !bind_ok by assumption.
  rewrite !features_labels_ok, !bind_ok by assumption.
  reflexivity.
Qed.

(** The split is a partition: with a matrix of at least one column and
    [shuffle] a permutation of the row numbers, the training and the
    validation data together hold every row of the data exactly once; the
    validation data are the last min(n, 1000) shuffled rows and the
    training data the n - 1000 before them; the features of a row are its
    entries after the first and its label is its first entry. *)
Theorem split_data_partition (c : nat) (rows : list (list R))
  (shuffle : list nat)
  (Hc : c <> 0%nat) (Hperm : Permutation shuffle (seq 0 (length rows))) :
  exists tr va,
    split_data (A2 c rows) shuffle
    = Ok (mkSplit (A2 c tr) (A2 c va)
                  (A2 (c - 1) (map (skipn 1) tr)) (A1 (column 0 tr))
                  (A2 (c - 1) (map (skipn 1) va)) (A1 (column 0 va)))
    /\ Permutation (tr ++ va) rows
    /\ length va = Nat.min (length rows) holdout
    /\ length tr = (length rows - holdout)%nat.
Proof.
  pose proof (split_data_eval c rows shuffle Hc Hperm) as E.
  cbn zeta in E. eexists. eexists. split; [exact E|].
  assert (Hlen : length shuffle = length rows).
  { rewrite (Permutation_length Hperm). apply length_seq. }
  split; [|split].
  - rewrite <- map_app, slices_partition.
    apply (Permutation_trans
             (l' := map (fun i => nth i rows []) (seq 0 (length rows)))).
    + apply Permutation_map. assumption.
    + rewrite map_nth_all. apply Permutation_refl.
  - rewrite length_map, slice_last_length, Hlen. reflexivity.
  - rewrite length_map, slice_until_last_length, Hlen. reflexivity.
Qed.

Lemma split_data_partition_witness :
  2%nat <> 0%nat
  /\ Permutation [2; 0; 1]%nat (seq 0 (length [[0; 5]; [1; 6]; [1; 7]]))
  /\ exists tr va,
       split_data (A2 2 [[0; 5]; [1; 6]; [1; 7]]) [2; 0; 1]%nat
       = Ok (mkSplit (A2 2 tr) (A2 2 va)
                     (A2 (2 - 1) (map (skipn 1) tr)) (A1 (column 0 tr))
                     (A2 (2 - 1) (map (skipn 1) va)) (A1 (column 0 va)))
       /\ Permutation (tr ++ va) [[0; 5]; [1; 6]; [1; 7]]
       /\ length va = Nat.min (length [[0; 5]; [1; 6]; [1; 7]]) holdout
       /\ length tr = (length [[0; 5]; [1; 6]; [1; 7]] - holdout)%nat.
Proof.
  assert (Hc : 2%nat <> 0%nat) by lia.
  assert (Hpi : Permutation [2; 0; 1]%nat
                  (seq 0 (length [[0; 5]; [1; 6]; [1; 7]]))).
  { simpl. apply Permutation_sym.
    apply (Permutation_cons_app [2%nat] [1%nat] 0%nat). simpl.
    apply perm_swap. }
  split; [exact Hc|]. split; [exact Hpi|].
  apply (split_data_partition 2 [[0; 5]; [1; 6]; [1; 7]] [2; 0; 1]%nat Hc Hpi).
Defined.

(** A file without rows is read as an array of shape (0,), on which the
    split raises IndexError; so does a matrix without columns. *)
Theorem split_data_degenerate (py_float : string -> result R)
  (rows : list (list R)) (shuffle : list nat)
  (Hperm : Permutation shuffle (seq 0 (length rows))) :
  (data <- load_data py_float [] ;; split_data data shuffle)
  = Raise IndexError
  /\ split_data (A2 0 rows) shuffle = Raise IndexError.
Proof.
  split; [reflexivity|].
  assert (Hall : Forall (fun i => (i < length rows)%nat) shuffle).
  { apply Forall_forall. intros i Hi.
    apply (Permutation_in _ Hperm) in Hi. apply in_seq in Hi. lia. }
  rewrite <- (slices_partition holdout shuffle) in Hall.
  apply Forall_app in Hall. destruct Hall as [H1 H2].
  unfold split_data. rewrite !take_rows_ok, !bind_ok by assumption.
  reflexivity.
Qed.

Lemma split_data_degenerate_witness :
  Permutation [1; 0]%nat (seq 0 (length ([[]; []] : list (list R))))
  /\ (data <- load_data (fun _ => Ok 1) [] ;; split_data data [1; 0]%nat)
     = Raise IndexError
  /\ split_data (A2 0 [[]; []]) [1; 0]%nat = Raise IndexError.
Proof.
  assert (Hpi : Permutation [1; 0]%nat
                  (seq 0 (length ([[]; []] : list (list R)))))
    by (simpl; apply perm_swap).
  split; [exact Hpi|].
  exact (split_data_degenerate (fun _ => Ok 1) [[]; []] [1; 0]%nat Hpi).
Defined.

(** Cell 12 cuts the training data before separating features and
    labels; the result is the first 50 rows of the training features
    and the first 50 training labels (all of them when there are fewer). *)
Theorem small_train_set_is_prefix (tr : ndarray) :
  small_train_set tr
  = (xy <- features_labels tr ;;
     Xs <- first_rows 50 (fst xy) ;;
     Ys <- first_rows 50 (snd xy) ;;
     Ok (Xs, Ys)).
Proof.
  destruct tr as [x|v|c rows]; try reflexivity.
  unfold small_train_set, features_labels.
  cbn [first_rows bind drop_first_column first_column].
  destruct (c =? 0)%nat; [reflexivity|].
  cbn [bind fst snd first_rows]. unfold column.
  rewrite !firstn_map. reflexivity.
Qed.

(** ** From the data to the trained weights (cells 4 and 8) *)

Lemma wf_take c rows idx :
  wf (A2 c rows) -> Forall (fun i => (i < length rows)%nat) idx ->
  Forall (fun r => length r = c) (map (fun i => nth i rows []) idx).
Proof.
  intros Hwf Hidx. apply Forall_forall. intros r Hr.
  apply in_map_iff in Hr. destruct Hr as (i & <- & Hi).
  rewrite Forall_forall in Hidx. apply (wf_nth c rows i Hwf (Hidx i Hi)).
Qed.

Lemma wf_features c rs :
  Forall (fun r => length r = c) rs ->
  wf (A2 (c - 1) (map (skipn 1) rs)).
Proof.
  intros H. cbn [wf]. apply Forall_forall. intros r Hr.
  apply in_map_iff in Hr. destruct Hr as (r0 & <- & Hin).
  rewrite Forall_forall in H. rewrite length_skipn, (H r0 Hin). reflexivity.
Qed.

Lemma nonempty_of_length {A} (l : list A) : (0 < length l)%nat -> l <> [].
Proof. destruct l; simpl; [lia | discriminate]. Qed.

(** With more than 1000 well-formed rows of at least one column, the
    split followed by the training loop cannot fail: from any initial
    weights with one entry per feature, [k] iterations complete, the
    weights keep one entry per feature and each history has [k]
    entries. *)
Theorem split_then_train (c : nat) (rows : list (list R))
  (shuffle : list nat) (eps : R) (k : nat) (ws0 : list R)
  (Hwf : wf (A2 c rows)) (Hc : c <> 0%nat)
  (Hperm : Permutation shuffle (seq 0 (length rows)))
  (Hn : (holdout < length rows)%nat) (Hw : length ws0 = (c - 1)%nat) :
  exists sp st ws,
    split_data (A2 c rows) shuffle = Ok sp
    /\ train (X_train sp) (Y_train sp) (X_val sp) (Y_val sp) eps (A1 ws0) k
       = Ok st
    /\ theta st = A1 ws
    /\ length ws = (c - 1)%nat
    /\ length (losses st) = k
    /\ length (train_accuracies st) = k
    /\ length (validation_accuracies st) = k.
Proof.
  pose proof (split_data_eval c rows shuffle Hc Hperm) as E. cbn zeta in E.
  assert (Hlen : length shuffle = length rows).
  { rewrite (Permutation_length Hperm). apply length_seq. }
  assert (Hall : Forall (fun i => (i < length rows)%nat) shuffle).
  { apply Forall_forall. intros i Hi.
    apply (Permutation_in _ Hperm) in Hi. apply in_seq in Hi. lia. }
  rewrite <- (slices_partition holdout shuffle) in Hall.
  apply Forall_app in Hall. destruct Hall as [H1 H2].
  set (tr := map (fun i => nth i rows []) (slice_until_last holdout shuffle))
    in *.
  set (va := map (fun i => nth i rows []) (slice_last holdout shuffle)) in *.
  assert (Htr : tr <> []).
  { apply nonempty_of_length. unfold tr.
    rewrite length_map, slice_until_last_length. lia. }
  assert (Hva : va <> []).
  { apply nonempty_of_length. unfold va.
    rewrite length_map, slice_last_length. unfold holdout in *. lia. }
  eexists. eexists. eexists. split; [exact E|].
  cbn [X_train Y_train X_val Y_val]. unfold train.
  rewrite (train_loop_eval (c - 1) (map (skipn 1) tr) (map (skipn 1) va)
             (column 0 tr) (column 0 va) eps).
  - split; [reflexivity|].
    cbn [theta losses train_accuracies validation_accuracies app].
    split; [reflexivity|]. split; [apply gd_iter_length; assumption|].
    repeat split; apply history_length.
  - apply wf_features. apply wf_take; assumption.
  - unfold column. rewrite !length_map. reflexivity.
  - intros N. apply map_eq_nil in N. contradiction.
  - unfold column. rewrite !length_map. reflexivity.
  - intros N. apply map_eq_nil in N. contradiction.
  - assumption.
Qed.



Lemma split_then_train_witness :
  wf (A2 2 (repeat [0; 1] 1001))
  /\ 2%nat <> 0%nat
  /\ Permutation (seq 0 1001) (seq 0 (length (repeat [0; 1] 1001)))
  /\ (holdout < length (repeat [0; 1] 1001))%nat
  /\ length [1 / 10] = (2 - 1)%nat
  /\ exists sp st ws,
       split_data (A2 2 (repeat [0; 1] 1001)) (seq 0 1001) = Ok sp
       /\ train (X_train sp) (Y_train sp) (X_val sp) (Y_val sp) (1 / 20)
            (A1 [1 / 10]) 3 = Ok st
       /\ theta st = A1 ws
       /\ length ws = (2 - 1)%nat
       /\ length (losses st) = 3%nat
       /\ length (train_accuracies st) = 3%nat
       /\ length (validation_accuracies st) = 3%nat.
Proof.
  assert (Hwf : wf (A2 2 (repeat [0; 1] 1001))).
  { cbn [wf]. apply Forall_forall. intros r Hr.
    apply repeat_spec in Hr. subst r. reflexivity. }
  assert (Hc : 2%nat <> 0%nat) by lia.
  assert (Hpi : Permutation (seq 0 1001)
                  (seq 0 (length (repeat [0; 1] 1001)))).
  { rewrite repeat_length. apply Permutation_refl. }
  assert (Hn : (holdout < length (repeat [0; 1] 1001))%nat).
  { rewrite repeat_length. unfold holdout. lia. }
  split; [exact Hwf|]. split; [exact Hc|]. split; [exact Hpi|].
  split; [exact Hn|]. split; [reflexivity|].
  apply (split_then_train 2 (repeat [0; 1] 1001) (seq 0 1001) (1 / 20) 3
           [1 / 10] Hwf Hc Hpi Hn eq_refl).
Defined.

Lemma gradient_onept_vector_regularized_witness :
  L2 <> NoReg
  /\ gradient (A1 [1; 2; 3]) (A0 0) (A1 [1; -1; 4]) true (selector L2) (1 / 2)
     = Raise ValueError.
Proof.
  assert (H : L2 <> NoReg) by discriminate.
  split; [exact H|].
  apply (gradient_onept_vector_regularized [1; 2; 3] 0 [1; -1; 4] L2 (1 / 2) H).
Defined.

Lemma gradient_onept_column_weights_witness :
  length [1; 2] = length [[1 / 2]; [1 / 2]]
  /\ exists rows,
       gradient (A1 [1; 2]) (A0 1) (A2 1 [[1 / 2]; [1 / 2]]) true
         (Some "l2"%string) 1 = Ok (A2 1 rows)
       /\ length rows = length [[1 / 2]; [1 / 2]].
Proof.
  split; [reflexivity|].
  apply (gradient_onept_column_weights [1; 2] 1 [[1 / 2]; [1 / 2]]
           (Some "l2"%string) 1 eq_refl).
Defined.

(** ** Training on the first 50 rows (cells 12 and 13) *)

Lemma Forall_firstn_of {A} (P : A -> Prop) n (l : list A) :
  Forall P l -> Forall P (firstn n l).
Proof.
  intros H. rewrite <- (firstn_skipn n l) in H.
  apply Forall_app in H. tauto.
Qed.

Lemma firstn_nonempty {A} n (l : list A) :
  n <> 0%nat -> l <> [] -> firstn n l <> [].
Proof. destruct n, l; simpl; congruence. Qed.

(** With more than 1000 well-formed rows, the second training run, on
    the first 50 rows of the training data (fewer if there are fewer),
    cannot fail either: the small set has min(50, n - 1000) rows, and
    [k] iterations from weights with one entry per feature complete with
    [k] entries in each history. *)
Theorem small_set_training (c : nat) (rows : list (list R))
  (shuffle : list nat) (eps : R) (k : nat) (ws0 : list R)
  (Hwf : wf (A2 c rows)) (Hc : c <> 0%nat)
  (Hperm : Permutation shuffle (seq 0 (length rows)))
  (Hn : (holdout < length rows)%nat) (Hw : length ws0 = (c - 1)%nat) :
  exists sp Xs Ys st ws,
    split_data (A2 c rows) shuffle = Ok sp
    /\ small_train_set (data_train sp) = Ok (Xs, Ys)
    /\ shape Xs = [Nat.min 50 (length rows - holdout); (c - 1)%nat]
    /\ shape Ys = [Nat.min 50 (length rows - holdout)]
    /\ train Xs Ys (X_val sp) (Y_val sp) eps (A1 ws0) k = Ok st
    /\ theta st = A1 ws
    /\ length ws = (c - 1)%nat
    /\ length (losses st) = k
    /\ length (train_accuracies st) = k
    /\ length (validation_accuracies st) = k.
Proof.
  pose proof (split_data_eval c rows shuffle Hc Hperm) as E. cbn zeta in E.
  assert (Hlen : length shuffle = length rows).
  { rewrite (Permutation_length Hperm). apply length_seq. }
  assert (Hall : Forall (fun i => (i < length rows)%nat) shuffle).
  { apply Forall_forall. intros i Hi.
    apply (Permutation_in _ Hperm) in Hi. apply in_seq in Hi. lia. }
  rewrite <- (slices_partition holdout shuffle) in Hall.
  apply Forall_app in Hall. destruct Hall as [H1 H2].
  set (tr := map (fun i => nth i rows []) (slice_until_last holdout shuffle))
    in *.
  set (va := map (fun i => nth i rows []) (slice_last holdout shuffle)) in *.
  assert (Ltr : length tr = (length rows - holdout)%nat).
  { unfold tr. rewrite length_map, slice_until_last_length. lia. }
  assert (Htr : tr <> []) by (apply nonempty_of_length; lia).
  assert (Hva : va <> []).
  { apply nonempty_of_length. unfold va.
    rewrite length_map, slice_last_length. unfold holdout in *. lia. }
  assert (Hsmall : firstn 50 tr <> []) by (apply firstn_nonempty; auto).
  exists (mkSplit (A2 c tr) (A2 c va)
            (A2 (c - 1) (map (skipn 1) tr)) (A1 (column 0 tr))
            (A2 (c - 1) (map (skipn 1) va)) (A1 (column 0 va))).
  exists (A2 (c - 1) (map (skipn 1) (firstn 50 tr))).
  exists (A1 (column 0 (firstn 50 tr))).
  cbn [data_train X_val Y_val].
  unfold small_train_set. cbn [first_rows bind].
  rewrite features_labels_ok by assumption.
  unfold train.
  rewrite (train_loop_eval (c - 1) (map (skipn 1) (firstn 50 tr))
             (map (skipn 1) va) (column 0 (firstn 50 tr)) (column 0 va) eps).
  - eexists. eexists. split; [exact E|]. split; [reflexivity|].
    cbn [shape]. rewrite length_map, length_firstn, Ltr.
    split; [reflexivity|].
    unfold column at 1. rewrite length_map, length_firstn, Ltr.
    split; [reflexivity|]. split; [reflexivity|].
    cbn [theta losses train_accuracies validation_accuracies app].
    split; [reflexivity|]. split; [apply gd_iter_length; assumption|].
    repeat split; apply history_length.
  - apply wf_features. apply Forall_firstn_of. apply wf_take; assumption.
  - unfold column. rewrite !length_map. reflexivity.
  - intros N. apply map_eq_nil in N. contradiction.
  - unfold column. rewrite !length_map. reflexivity.
  - intros N. apply map_eq_nil in N. contradiction.
  - assumption.
Qed.

Lemma small_set_training_witness :
  wf (A2 2 (repeat [0; 1] 1001))
  /\ 2%nat <> 0%nat
  /\ Permutation (seq 0 1001) (seq 0 (length (repeat [0; 1] 1001)))
  /\ (holdout < length (repeat [0; 1] 1001))%nat
  /\ length [1 / 10] = (2 - 1)%nat
  /\ exists sp Xs Ys st ws,
       split_data (A2 2 (repeat [0; 1] 1001)) (seq 0 1001) = Ok sp
       /\ small_train_set (data_train sp) = Ok (Xs, Ys)
       /\ shape Xs
          = [Nat.min 50 (length (repeat [0; 1] 1001) - holdout); (2 - 1)%nat]
       /\ shape Ys = [Nat.min 50 (length (repeat [0; 1] 1001) - holdout)]
       /\ train Xs Ys (X_val sp) (Y_val sp) (1 / 20) (A1 [1 / 10]) 3 = Ok st
       /\ theta st = A1 ws
       /\ length ws = (2 - 1)%nat
       /\ length (losses st) = 3%nat
       /\ length (train_accuracies st) = 3%nat
       /\ length (validation_accuracies st) = 3%nat.
Proof.
  assert (Hwf : wf (A2 2 (repeat [0; 1] 1001))).
  { cbn [wf]. apply Forall_forall. intros r Hr.
    apply repeat_spec in Hr. subst r. reflexivity. }
  assert (Hc : 2%nat <> 0%nat) by lia.
  assert (Hpi : Permutation (seq 0 1001)
                  (seq 0 (length (repeat [0; 1] 1001)))).
  { rewrite repeat_length. apply Permutation_refl. }
  assert (Hn : (holdout < length (repeat [0; 1] 1001))%nat).
  { rewrite repeat_length. unfold holdout. lia. }
  split; [exact Hwf|]. split; [exact Hc|]. split; [exact Hpi|].
  split; [exact Hn|]. split; [reflexivity|].
  apply (small_set_training 2 (repeat [0; 1] 1001) (seq 0 1001) (1 / 20) 3
           [1 / 10] Hwf Hc Hpi Hn eq_refl).
Defined.

(** * float64 rounding: where the exact-arithmetic statements stop *)

Import F64.

(** ** Powers of two and binades *)



Lemma pow2_pos z : 0 < pow2 z.
Proof. unfold pow2. apply powerRZ_lt. lra. Qed.

Lemma pow2_add a b : pow2 (a + b) = pow2 a * pow2 b.
Proof. unfold pow2. apply powerRZ_add. lra. Qed.





Lemma pow2_0 : pow2 0 = 1.
Proof. reflexivity. Qed.



Lemma pow2_opp z : pow2 (- z) = / pow2 z.
Proof.
  pose proof (pow2_pos z). apply (Rmult_eq_reg_l (pow2 z)); [|lra].
  rewrite <- pow2_add, Z.add_opp_diag_r, pow2_0, Rinv_r by lra. reflexivity.
Qed.




(** ** Rounding to an integer and to 53 bits *)









(** ** Rounding a positive exact result *)









(** ** The operations on finite non-zero numbers *)








(** ** Saturation of the sigmoid *)



(** ** Scores too small to move the sigmoid off one half *)










